(** * Redirect worker: rule resolution, rule cache and request preprocessing

    A shallow embedding of [src/index.ts]: the [fetch] handler of the worker
    and its helper [matchPath].  The handler is embedded with explicit state
    passing: the module-level cache ([cachedRules], [cacheTimestamp]) is an
    input and an output, the clock and the network are inputs, raised
    exceptions are an outcome of their own.

    The JavaScript runtime pieces the handler calls ([RegExp] with
    [String.prototype.match], [new URL]) are an interface, [JsRuntime]; the
    handler and its properties are stated over every implementation of it.
    A small backtracking regular-expression engine for a fragment of the
    ECMAScript pattern syntax instantiates the interface where a statement
    needs a concrete match. *)

From Stdlib Require Import ZArith List Bool Ascii String Lia.
Import ListNotations.

Local Open Scope string_scope.
Local Open Scope Z_scope.

(* ================================================================== *)
(** ** Strings as JavaScript uses them *)

Module Js.

(** Truthiness of a string: only the empty string is falsy. *)
Definition truthy (s : string) : bool :=
  match s with EmptyString => false | String _ _ => true end.

(** [s.includes(c)] for a one-character needle. *)
Fixpoint includes (c : ascii) (s : string) : bool :=
  match s with
  | EmptyString => false
  | String a s' => Ascii.eqb a c || includes c s'
  end.

(** [s.replace(/c/g, by)] for a one-character regular expression: every
    occurrence of [c] is replaced, the replacement text is not scanned again. *)
Fixpoint replaceAll (c : ascii) (by_ : string) (s : string) : string :=
  match s with
  | EmptyString => EmptyString
  | String a s' =>
      if Ascii.eqb a c then by_ ++ replaceAll c by_ s'
      else String a (replaceAll c by_ s')
  end.

(** [s.startsWith(p)]. *)
Definition startsWith (p s : string) : bool := String.prefix p s.

(** [s.substring(n)]: the suffix from index [n]. *)
Definition substringFrom (n : nat) (s : string) : string :=
  String.substring n (String.length s - n) s.

(** [a !== b] and [a === b] on strings. *)
Definition strictEq (a b : string) : bool := String.eqb a b.

(** [x === 'lit'] where [x] may be [undefined]. *)
Definition optIs (x : option string) (lit : string) : bool :=
  match x with Some v => String.eqb v lit | None => false end.

(** The ASCII decimal digits, [\d] of the regular expressions. *)
Definition isDigit (c : ascii) : bool :=
  let n := nat_of_ascii c in (Nat.leb 48 n && Nat.leb n 57)%bool.

Definition digitValue (c : ascii) : N := N.of_nat (nat_of_ascii c - 48).

(** [parseInt] on a string of decimal digits, read left to right.  The
    handler only uses the result as an array index, once decremented;
    indices past the end of the array all read [undefined], so the exact
    value stands for the floating-point one of the source. *)
Fixpoint parseIntFrom (acc : N) (ds : list ascii) : N :=
  match ds with
  | [] => acc
  | d :: ds' => parseIntFrom (10 * acc + digitValue d)%N ds'
  end.

Definition parseInt (ds : list ascii) : N := parseIntFrom 0%N ds.

End Js.

(* ================================================================== *)
(** ** Data model *)

(** [interface RedirectRule] (index.ts 14-21).  Optional fields are
    [option]s: [None] is [undefined]. *)
Record RedirectRule : Type := mkRule {
  from : string;
  to : string;
  status : option Z;
  preserveQuery : option bool;
  caseSensitive : option bool;
  domain : option string
}.

(** The module-level cache (index.ts 26-27). *)
Record Cache : Type := mkCache {
  cachedRules : option (list RedirectRule);
  cacheTimestamp : Z
}.

(** The state of a freshly started worker. *)
Definition initialCache : Cache := mkCache None 0.

Definition CACHE_TTL : Z := 300000.

(** The compiled-in rules (index.ts 31-107). *)
Definition DEFAULT_REDIRECTS : list RedirectRule :=
  [ mkRule "/old-page" "/new-page" (Some 301) (Some true) None None;
    mkRule "/blog/*" "/articles/$1" (Some 301) (Some true) None None;
    mkRule "/product/(.*)" "/products/$1" (Some 301) (Some true) None None;
    mkRule "/" "https://calendar.app.google/6TBBkNxv1fH7etaj6" (Some 301)
      (Some false) None (Some "book.carlosguerrero.com");
    mkRule "/" "https://calendar.app.google/6TBBkNxv1fH7etaj6" (Some 301)
      (Some false) None (Some "calendar.carlosguerrero.com");
    mkRule "/calendar" "https://calendar.app.google/6TBBkNxv1fH7etaj6"
      (Some 301) (Some false) None (Some "carlosguerrero.com");
    mkRule "/" "https://wa.me/qr/PVZTFJDU3YOPE1" (Some 301) (Some false) None
      (Some "whatsapp.carlosguerrero.com");
    mkRule "/whatsapp" "https://wa.me/qr/PVZTFJDU3YOPE1" (Some 301)
      (Some false) None (Some "carlosguerrero.com");
    mkRule "/linkedin" "https://www.linkedin.com/in/carlosguerrero-com/"
      (Some 301) (Some false) None (Some "carlosguerrero.com");
    mkRule "/" "https://cv.carlosguerrero.com" (Some 301) (Some false) None
      (Some "carlosguerrero.com") ].

(** The worker's environment bindings the handler reads. *)
Record Env : Type := mkEnv {
  FORCE_HTTPS : option string;
  WWW_REDIRECT : option string;
  GIST_CONFIG_URL : option string;
  ADMIN_KEY : option string
}.

(* ================================================================== *)
(** ** URLs

    A URL record as the URL standard keeps it, with the getters and the
    three setters the handler uses.  The query and the fragment are
    [None] when the URL has none, which the serializer tells apart from
    an empty one. *)

Module Url.

Record URL : Type := mkURL {
  scheme : string;
  username : string;
  password : string;
  host : option string;
  port : option string;
  path : string;
  query : option string;
  fragment : option string
}.

Definition protocol (u : URL) : string := scheme u ++ ":".

Definition hostname (u : URL) : string :=
  match host u with Some h => h | None => "" end.

Definition pathname (u : URL) : string := path u.

Definition search (u : URL) : string :=
  match query u with
  | Some (String c q) => "?" ++ String c q
  | _ => ""
  end.

Definition hostPort (u : URL) : string :=
  hostname u ++ match port u with Some p => ":" ++ p | None => "" end.

(** [url.origin] of an http or https URL. *)
Definition origin (u : URL) : string := scheme u ++ "://" ++ hostPort u.

Definition credentials (u : URL) : string :=
  if (Js.truthy (username u) || Js.truthy (password u))%bool then
    username u
    ++ (if Js.truthy (password u) then ":" ++ password u else "")
    ++ "@"
  else "".

(** [url.toString()], the URL serializer.  Without a host the path
    follows the scheme at once; the marker the standard puts before a
    hostless path that starts with two slashes is left out. *)
Definition toString (u : URL) : string :=
  scheme u ++ ":"
  ++ match host u with
     | Some _ => "//" ++ credentials u ++ hostPort u
     | None => ""
     end
  ++ path u
  ++ match query u with Some q => "?" ++ q | None => "" end
  ++ match fragment u with Some f => "#" ++ f | None => "" end.

(** [url.protocol = 'https:'] on an http URL: the scheme changes, and a
    port that is the default one of the new scheme is dropped. *)
Definition setProtocolHttps (u : URL) : URL :=
  mkURL "https" (username u) (password u) (host u)
    (match port u with
     | Some p => if String.eqb p "443" then None else Some p
     | None => None
     end)
    (path u) (query u) (fragment u).

(** [url.hostname = h] on an http or https URL: an empty host is refused
    and leaves the URL as it was. *)
Definition setHostname (h : string) (u : URL) : URL :=
  if Js.truthy h then
    mkURL (scheme u) (username u) (password u) (Some h) (port u) (path u)
      (query u) (fragment u)
  else u.

(** [url.search = v]: the empty string removes the query; otherwise one
    leading question mark is dropped and the rest becomes the query.  The
    handler only assigns the [search] of a parsed URL, which is already
    percent-encoded. *)
Definition setSearch (v : string) (u : URL) : URL :=
  mkURL (scheme u) (username u) (password u) (host u) (port u) (path u)
    (match v with
     | EmptyString => None
     | String c v' => if Ascii.eqb c "?" then Some v' else Some v
     end)
    (fragment u).

End Url.

Export Url(URL).

(* ================================================================== *)
(** ** The runtime interface *)

(** Exceptions the handler can let escape. *)
Inductive Exn : Type :=
| SyntaxError   (* new RegExp on a malformed pattern *)
| TypeError     (* new URL on an unparsable input *)
| RangeError.   (* Response.redirect on a status that is no redirect status *)

(** A computation that returns or raises.  An exception the handler
    raises is not caught by anything: the platform then answers the
    request with its own error page, a status 500. *)
Inductive Exceptional (A : Type) : Type :=
| Ok (a : A)
| Raise (e : Exn).

Arguments Ok {A} a.
Arguments Raise {A} e.

Definition bindE {A B : Type} (m : Exceptional A) (k : A -> Exceptional B)
  : Exceptional B :=
  match m with Ok a => k a | Raise e => Raise e end.

Notation "x <- m ;; k" := (bindE m (fun x => k))
  (at level 61, m at next level, right associativity).

(** What the handler needs from the JavaScript runtime.
    - [RegExp_new source flags] is [new RegExp(source, flags)]: [None] when
      the constructor throws a SyntaxError.
    - [String_match s re] is [s.match(re)] for a regular expression without
      the global flag: [None] for [null], otherwise the match array, the
      whole match first and then one entry per capturing group, [None]
      for a group that did not take part ([undefined]).
    - [URL_new input base] is [new URL(input)] or [new URL(input, base)]:
      [None] when the constructor throws a TypeError. *)
Class JsRuntime : Type := {
  RegExp : Type;
  RegExp_new : string -> string -> option RegExp;
  String_match : string -> RegExp -> option (list (option string));
  URL_new : string -> option string -> option URL
}.

(* ================================================================== *)
(** ** The handler *)

(** What [await fetch(url)] followed by [response.json()] can produce.
    The elements of an array are taken to be rules, as the handler takes
    them without checking. *)
Inductive Json : Type :=
| JArray (rules : list RedirectRule)   (* Array.isArray holds *)
| JOther.                              (* any other JSON value *)

Inductive FetchResult : Type :=
| NetworkFailure                               (* fetch rejects *)
| HttpResponse (ok : bool) (body : option Json).
    (* response.ok, and the parsed body; None: response.json() rejects *)

Definition Network : Type := string -> FetchResult.

Record Request : Type := mkRequest {
  url : URL;
  method : string;
  authorization : option string   (* request.headers.get('Authorization') *)
}.

Inductive Response : Type :=
| Redirect (location : string) (code : Z)
| Health
| Unauthorized
| AdminRules (rules : list RedirectRule)
| NotFound (pathname : string).

Definition statusOf (r : Response) : Z :=
  match r with
  | Redirect _ c => c
  | Health => 200
  | Unauthorized => 401
  | AdminRules _ => 200
  | NotFound _ => 404
  end.

(** [Response.redirect(url, status)]: a status that is not a redirect
    status raises a RangeError. *)
Definition isRedirectStatus (c : Z) : bool :=
  (c =? 301) || (c =? 302) || (c =? 303) || (c =? 307) || (c =? 308).

Definition Response_redirect (location : string) (c : Z)
  : Exceptional Response :=
  if isRedirectStatus c then Ok (Redirect location c) else Raise RangeError.

Record MatchResult : Type := mkMatch { captures : list (option string) }.

(** The outcome of one run of the handler: what it returns or raises, the
    cache it leaves, and the URLs it fetched, in order. *)
Record Run : Type := mkRun {
  outcome : Exceptional Response;
  cacheAfter : Cache;
  fetched : list string
}.

Section Handler.

Context {rt : JsRuntime}.

(** [matchPath] (index.ts 261-283). *)
Definition regexSource (pattern : string) : string :=
  let regexPattern :=
    Js.replaceAll "/" "\/" (Js.replaceAll "*" "(.*)" pattern) in
  if (Js.includes "(" pattern && Js.includes ")" pattern)%bool
  then pattern else regexPattern.

Definition matchPath (path pattern : string) (caseSensitive : bool)
  : Exceptional (option MatchResult) :=
  let regexPattern := regexSource pattern in
  let flags := if caseSensitive then "" else "i" in
  match RegExp_new ("^" ++ regexPattern ++ "$") flags with
  | None => Raise SyntaxError
  | Some regex =>
      match String_match path regex with
      | Some m => Ok (Some (mkMatch (tl m)))
      | None => Ok None
      end
  end.

(** [match.captures[captureIndex] || ''] with
    [captureIndex = parseInt(index) - 1] (index.ts 184-185). *)
Definition captureOrEmpty (caps : list (option string)) (index : list ascii)
  : string :=
  match Js.parseInt index with
  | N0 => ""
  | Npos p =>
      match nth_error caps (N.to_nat (N.pred (Npos p))) with
      | Some (Some s) => s
      | _ => ""
      end
  end.

(** [redirectTo.replace(/\$(\d+)/g, ...)] (index.ts 183-186): one pass,
    left to right; a dollar sign followed by a longest run of one or more
    digits is a placeholder.  [pending] is [None] outside a placeholder
    and [Some ds] after a dollar sign and the digits [ds] read so far. *)
Definition flushPending (caps : list (option string))
  (pending : option (list ascii)) : string :=
  match pending with
  | None => ""
  | Some [] => "$"
  | Some ds => captureOrEmpty caps ds
  end.

Fixpoint substituteFrom (caps : list (option string))
  (pending : option (list ascii)) (s : string) : string :=
  match s with
  | EmptyString => flushPending caps pending
  | String c s' =>
      match pending with
      | Some ds =>
          if Js.isDigit c then substituteFrom caps (Some (ds ++ [c])%list) s'
          else
            flushPending caps pending
            ++ (if Ascii.eqb c "$" then substituteFrom caps (Some []) s'
                else String c (substituteFrom caps None s'))
      | None =>
          if Ascii.eqb c "$" then substituteFrom caps (Some []) s'
          else String c (substituteFrom caps None s')
      end
  end.

Definition substitute (caps : list (option string)) (template : string)
  : string := substituteFrom caps None template.

(** [new URL(redirectTo)], and on a TypeError
    [new URL(redirectTo, url.origin)] (index.ts 189-196). *)
Definition resolveUrl (redirectTo : string) (u : URL) : Exceptional URL :=
  match URL_new redirectTo None with
  | Some r => Ok r
  | None =>
      match URL_new redirectTo (Some (Url.origin u)) with
      | Some r => Ok r
      | None => Raise TypeError
      end
  end.

(** [rule.preserveQuery !== false && url.search] (index.ts 199). *)
Definition keepsQuery (rule : RedirectRule) (u : URL) : bool :=
  (negb (match preserveQuery rule with Some false => true | _ => false end)
   && Js.truthy (Url.search u))%bool.

(** [rule.status || 301] (index.ts 203). *)
Definition statusOrDefault (rule : RedirectRule) : Z :=
  match status rule with
  | Some c => if c =? 0 then 301 else c
  | None => 301
  end.

(** The destination of a matched rule (index.ts 180-201). *)
Definition destination (rule : RedirectRule) (m : MatchResult) (u : URL)
  : Exceptional URL :=
  let redirectTo := substitute (captures m) (to rule) in
  redirectUrl <- resolveUrl redirectTo u ;;
  Ok (if keepsQuery rule u then Url.setSearch (Url.search u) redirectUrl
      else redirectUrl).

(** The body of [if (match) { ... }] (index.ts 179-205). *)
Definition redirectFor (rule : RedirectRule) (m : MatchResult) (u : URL)
  : Exceptional Response :=
  redirectUrl <- destination rule m u ;;
  Response_redirect (Url.toString redirectUrl) (statusOrDefault rule).

(** [rule.domain && rule.domain !== url.hostname] (index.ts 173). *)
Definition domainSkips (rule : RedirectRule) (u : URL) : bool :=
  match domain rule with
  | Some d => (Js.truthy d && negb (Js.strictEq d (Url.hostname u)))%bool
  | None => false
  end.

(** [rule.caseSensitive !== false] (index.ts 177). *)
Definition isCaseSensitive (rule : RedirectRule) : bool :=
  match caseSensitive rule with Some false => false | _ => true end.

(** The rule loop (index.ts 171-206): [None] when the loop ends without
    returning, so that the handler goes on to the lines after it. *)
Fixpoint resolve (u : URL) (redirectRules : list RedirectRule)
  : Exceptional (option Response) :=
  match redirectRules with
  | [] => Ok None
  | rule :: rest =>
      if domainSkips rule u then resolve u rest
      else
        m <- matchPath (Url.pathname u) (from rule) (isCaseSensitive rule) ;;
        match m with
        | Some m => r <- redirectFor rule m u ;; Ok (Some r)
        | None => resolve u rest
        end
  end.

(** Forced HTTPS and the www policy (index.ts 113-126). *)
Definition preprocess (u : URL) (env : Env) : option Response :=
  if (Js.strictEq (Url.protocol u) "http:"
      && negb (Js.optIs (FORCE_HTTPS env) "false"))%bool then
    Some (Redirect (Url.toString (Url.setProtocolHttps u)) 301)
  else if (Js.optIs (WWW_REDIRECT env) "remove"
           && Js.startsWith "www." (Url.hostname u))%bool then
    Some (Redirect
            (Url.toString
               (Url.setHostname (Js.substringFrom 4 (Url.hostname u)) u))
            301)
  else if (Js.optIs (WWW_REDIRECT env) "add"
           && negb (Js.startsWith "www." (Url.hostname u)))%bool then
    Some (Redirect
            (Url.toString (Url.setHostname ("www." ++ Url.hostname u) u)) 301)
  else None.

(** [cachedRules || DEFAULT_REDIRECTS]. *)
Definition cachedOrDefault (cache : Cache) : list RedirectRule :=
  match cachedRules cache with
  | Some rules => rules
  | None => DEFAULT_REDIRECTS
  end.

(** The configured source, [env.GIST_CONFIG_URL] when truthy. *)
Definition configuredSource (env : Env) : option string :=
  match GIST_CONFIG_URL env with
  | Some src => if Js.truthy src then Some src else None
  | None => None
  end.

(** The [else] branch of the freshness test (index.ts 136-167): one fetch
    when a source is configured, and the cache replaced only when the body
    is a non-empty array. *)
Definition refresh (env : Env) (cache : Cache) (now : Z) (net : Network)
  : list RedirectRule * Cache * list string :=
  match configuredSource env with
  | Some src =>
      match net src with
      | HttpResponse true (Some (JArray externalRules)) =>
          if (0 <? Z.of_nat (List.length externalRules)) then
            (externalRules, mkCache (Some externalRules) now, [src])
          else (cachedOrDefault cache, cache, [src])
      | HttpResponse true (Some JOther) =>
          (cachedOrDefault cache, cache, [src])
      | HttpResponse true None => (cachedOrDefault cache, cache, [src])
      | HttpResponse false _ => (cachedOrDefault cache, cache, [src])
      | NetworkFailure => (cachedOrDefault cache, cache, [src])
      end
  | None => (cachedOrDefault cache, cache, [])
  end.

(** Loading the rules (index.ts 129-168): the rules of this request, the
    cache afterwards and the URLs fetched.  The test is
    [cachedRules && (now - cacheTimestamp) < CACHE_TTL]. *)
Definition loadRules (env : Env) (cache : Cache) (now : Z) (net : Network)
  : list RedirectRule * Cache * list string :=
  match cachedRules cache with
  | Some rules =>
      if now - cacheTimestamp cache <? CACHE_TTL then (rules, cache, [])
      else refresh env cache now net
  | None => refresh env cache now net
  end.

(** The responses after the loop (index.ts 208-254). *)
Definition fallback (req : Request) (env : Env)
  (redirectRules : list RedirectRule) : Response :=
  let u := url req in
  if Js.strictEq (Url.pathname u) "/health" then Health
  else if (Js.strictEq (Url.pathname u) "/admin/rules"
           && Js.strictEq (method req) "GET")%bool then
    match ADMIN_KEY env with
    | Some key =>
        if (Js.truthy key
            && negb (Js.optIs (authorization req) ("Bearer " ++ key)))%bool
        then Unauthorized
        else AdminRules redirectRules
    | None => AdminRules redirectRules
    end
  else NotFound (Url.pathname u).

(** [fetch] (index.ts 110-255). *)
Definition fetch (req : Request) (env : Env) (cache : Cache) (now : Z)
  (net : Network) : Run :=
  match preprocess (url req) env with
  | Some r => mkRun (Ok r) cache []
  | None =>
      let '(redirectRules, cache', log) := loadRules env cache now net in
      mkRun
        (r <- resolve (url req) redirectRules ;;
         match r with
         | Some r => Ok r
         | None => Ok (fallback req env redirectRules)
         end)
        cache' log
  end.

End Handler.

(* ================================================================== *)
(** ** A regular-expression engine for a fragment of the pattern syntax

    Literal characters, [.], character classes with ranges and the escapes
    [\d \w \s] and their complements, [^] and [$], alternation, capturing
    and non-capturing groups, the quantifiers [* + ?] greedy and lazy, and
    the flag [i].  Matching follows the backtracking semantics of the
    language standard, continuation for continuation.  A pattern outside
    the fragment (counted repetition, look-around, back-references, named
    groups, hexadecimal and Unicode escapes) is reported like a malformed
    one; no statement below uses such a pattern. *)

Module Regex.

Local Open Scope nat_scope.
Local Open Scope char_scope.
Local Open Scope list_scope.

Inductive ClassItem : Type :=
| CChar (c : ascii)
| CRange (lo hi : ascii)
| CDigit (negated : bool)
| CWord (negated : bool)
| CSpace (negated : bool).

Inductive Re : Type :=
| Empty
| Char (c : ascii)
| Dot
| Class (negated : bool) (items : list ClassItem)
| Bol
| Eol
| Seq (a b : Re)
| Alt (a b : Re)
| Quant (min : nat) (max : option nat) (greedy : bool) (a : Re)
| Group (index : nat) (a : Re).

(** *** Characters *)

Definition code (c : ascii) : nat := nat_of_ascii c.

Definition inRange (lo hi c : ascii) : bool :=
  Nat.leb (code lo) (code c) && Nat.leb (code c) (code hi).

Definition isWordChar (c : ascii) : bool :=
  inRange "a" "z" c || inRange "A" "Z" c || inRange "0" "9" c
  || Ascii.eqb c "_".

Definition isSpaceChar (c : ascii) : bool :=
  Nat.eqb (code c) 32 || (Nat.leb 9 (code c) && Nat.leb (code c) 13).

Definition isLineTerminator (c : ascii) : bool :=
  Nat.eqb (code c) 10 || Nat.eqb (code c) 13.

Definition toUpper (c : ascii) : ascii :=
  if inRange "a" "z" c then ascii_of_nat (code c - 32) else c.

Definition toLower (c : ascii) : ascii :=
  if inRange "A" "Z" c then ascii_of_nat (code c + 32) else c.

(** Canonicalize of the standard. *)
Definition canon (ignoreCase : bool) (c : ascii) : ascii :=
  if ignoreCase then toUpper c else c.

Definition itemHas (it : ClassItem) (c : ascii) : bool :=
  match it with
  | CChar a => Ascii.eqb a c
  | CRange lo hi => inRange lo hi c
  | CDigit neg => xorb neg (inRange "0" "9" c)
  | CWord neg => xorb neg (isWordChar c)
  | CSpace neg => xorb neg (isSpaceChar c)
  end.

(** Membership up to canonicalization: some member of the set has the
    canonical form of [c]. *)
Definition classHas (ignoreCase : bool) (items : list ClassItem) (c : ascii)
  : bool :=
  existsb
    (fun it =>
       itemHas it c
       || (ignoreCase && (itemHas it (toUpper c) || itemHas it (toLower c))))
    items.

(** *** Parsing *)

Definition Parsed : Type := option (Re * list ascii * nat).

(** An escape outside a class: the atom it denotes. *)
Definition escapeAtom (c : ascii) : option Re :=
  if Ascii.eqb c "d" then Some (Class false [CDigit false])
  else if Ascii.eqb c "D" then Some (Class false [CDigit true])
  else if Ascii.eqb c "w" then Some (Class false [CWord false])
  else if Ascii.eqb c "W" then Some (Class false [CWord true])
  else if Ascii.eqb c "s" then Some (Class false [CSpace false])
  else if Ascii.eqb c "S" then Some (Class false [CSpace true])
  else if Ascii.eqb c "n" then Some (Char (ascii_of_nat 10))
  else if Ascii.eqb c "r" then Some (Char (ascii_of_nat 13))
  else if Ascii.eqb c "t" then Some (Char (ascii_of_nat 9))
  else if Ascii.eqb c "f" then Some (Char (ascii_of_nat 12))
  else if Ascii.eqb c "v" then Some (Char (ascii_of_nat 11))
  else if isWordChar c then None
  else Some (Char c).

(** An escape inside a class. *)
Definition escapeItem (c : ascii) : option ClassItem :=
  match escapeAtom c with
  | Some (Char a) => Some (CChar a)
  | Some (Class _ [it]) => Some it
  | _ => if Ascii.eqb c "b" then Some (CChar (ascii_of_nat 8)) else None
  end.

Definition isSingle (it : ClassItem) : option ascii :=
  match it with CChar c => Some c | _ => None end.

(** One class atom at the head of [s]. *)
Definition classAtom (s : list ascii) : option (ClassItem * list ascii) :=
  match s with
  | [] => None
  | "\" :: c :: s' =>
      match escapeItem c with Some it => Some (it, s') | None => None end
  | "\" :: [] => None
  | c :: s' => Some (CChar c, s')
  end.

(** The items of a class up to the closing bracket. *)
Fixpoint classItems (fuel : nat) (s : list ascii)
  : option (list ClassItem * list ascii) :=
  match fuel with
  | O => None
  | S fuel' =>
      match s with
      | [] => None
      | "]" :: s' => Some ([], s')
      | _ =>
          match classAtom s with
          | None => None
          | Some (a, "-" :: "]" :: s') => Some ([a; CChar "-"], s')
          | Some (a, "-" :: s') =>
              match classAtom s' with
              | None => None
              | Some (b, s'') =>
                  match isSingle a, isSingle b with
                  | Some lo, Some hi =>
                      if Nat.leb (code lo) (code hi) then
                        match classItems fuel' s'' with
                        | Some (its, r) => Some (CRange lo hi :: its, r)
                        | None => None
                        end
                      else None
                  | _, _ =>
                      match classItems fuel' s'' with
                      | Some (its, r) => Some (a :: CChar "-" :: b :: its, r)
                      | None => None
                      end
                  end
              end
          | Some (a, s') =>
              match classItems fuel' s' with
              | Some (its, r) => Some (a :: its, r)
              | None => None
              end
          end
      end
  end.

(** A quantifier after an atom, if there is one. *)
Definition quantified (a : Re) (s : list ascii) : Re * list ascii :=
  let lazy (s' : list ascii) : bool * list ascii :=
    match s' with "?" :: s'' => (false, s'') | _ => (true, s') end in
  match s with
  | "*" :: s' => let '(g, r) := lazy s' in (Quant 0 None g a, r)
  | "+" :: s' => let '(g, r) := lazy s' in (Quant 1 None g a, r)
  | "?" :: s' => let '(g, r) := lazy s' in (Quant 0 (Some 1) g a, r)
  | _ => (a, s)
  end.

(** Disjunction, Alternative, Term and Atom of the grammar; [n] is the
    index of the next capturing group, numbered by opening parenthesis. *)
Fixpoint disjunction (fuel : nat) (s : list ascii) (n : nat) : Parsed :=
  match fuel with
  | O => None
  | S f =>
      match alternative f s n with
      | Some (a, "|" :: s', n') =>
          match disjunction f s' n' with
          | Some (b, s'', n'') => Some (Alt a b, s'', n'')
          | None => None
          end
      | r => r
      end
  end
with alternative (fuel : nat) (s : list ascii) (n : nat) : Parsed :=
  match fuel with
  | O => None
  | S f =>
      match s with
      | [] => Some (Empty, s, n)
      | "|" :: _ => Some (Empty, s, n)
      | ")" :: _ => Some (Empty, s, n)
      | _ =>
          match term f s n with
          | Some (t, s', n') =>
              match alternative f s' n' with
              | Some (a, s'', n'') => Some (Seq t a, s'', n'')
              | None => None
              end
          | None => None
          end
      end
  end
with term (fuel : nat) (s : list ascii) (n : nat) : Parsed :=
  match fuel with
  | O => None
  | S f =>
      match s with
      | "^" :: s' => Some (Bol, s', n)
      | "$" :: s' => Some (Eol, s', n)
      | _ =>
          match atom f s n with
          | Some (a, s', n') =>
              let '(q, r) := quantified a s' in Some (q, r, n')
          | None => None
          end
      end
  end
with atom (fuel : nat) (s : list ascii) (n : nat) : Parsed :=
  match fuel with
  | O => None
  | S f =>
      match s with
      | [] => None
      | "." :: s' => Some (Dot, s', n)
      | "(" :: "?" :: ":" :: s' =>
          match disjunction f s' n with
          | Some (d, ")" :: s'', n') => Some (d, s'', n')
          | _ => None
          end
      | "(" :: "?" :: _ => None
      | "(" :: s' =>
          match disjunction f s' (S n) with
          | Some (d, ")" :: s'', n') => Some (Group n d, s'', n')
          | _ => None
          end
      | "[" :: "^" :: s' =>
          match classItems (S (List.length s')) s' with
          | Some (its, r) => Some (Class true its, r, n)
          | None => None
          end
      | "[" :: s' =>
          match classItems (S (List.length s')) s' with
          | Some (its, r) => Some (Class false its, r, n)
          | None => None
          end
      | "\" :: c :: s' =>
          match escapeAtom c with
          | Some a => Some (a, s', n)
          | None => None
          end
      | "\" :: [] => None
      | "*" :: _ => None
      | "+" :: _ => None
      | "?" :: _ => None
      | ")" :: _ => None
      | "|" :: _ => None
      | "{" :: _ => None
      | c :: s' => Some (Char c, s', n)
      end
  end.

(** A whole pattern: the disjunction must use up the source. *)
Definition parse (source : string) : option (Re * nat) :=
  let s := list_ascii_of_string source in
  match disjunction (4 * List.length s + 8) s 1 with
  | Some (r, [], n) => Some (r, n)
  | _ => None
  end.

(** *** Matching *)

(** A match state: the input still to read, the index reached, and the
    captures so far, one entry per capturing group, group 1 first. *)
Record MState : Type := mkState {
  rest : list ascii;
  pos : nat;
  caps : list (option (list ascii))
}.

Definition Cont : Type := MState -> option MState.

Definition Matcher : Type := MState -> Cont -> option MState.

Fixpoint setNth {A : Type} (i : nat) (v : A) (l : list A) : list A :=
  match l, i with
  | [], _ => []
  | _ :: l', O => v :: l'
  | a :: l', S i' => a :: setNth i' v l'
  end.

(** The capture of group [i], numbered from 1. *)
Definition setCap (i : nat) (v : option (list ascii)) (x : MState) : MState :=
  mkState (rest x) (pos x) (setNth (Nat.pred i) v (caps x)).

(** The capturing groups inside a regular expression. *)
Fixpoint groupsOf (r : Re) : list nat :=
  match r with
  | Seq a b => groupsOf a ++ groupsOf b
  | Alt a b => groupsOf a ++ groupsOf b
  | Quant _ _ _ a => groupsOf a
  | Group i a => i :: groupsOf a
  | _ => []
  end.

Definition clearCaps (gs : list nat) (x : MState) : MState :=
  fold_left (fun y i => setCap i None y) gs x.

(** Reading one character that satisfies [ok]. *)
Definition step (ok : ascii -> bool) : Matcher :=
  fun x k =>
    match rest x with
    | a :: s' => if ok a then k (mkState s' (S (pos x)) (caps x)) else None
    | [] => None
    end.

Definition orElse (a : option MState) (b : unit -> option MState)
  : option MState :=
  match a with Some z => Some z | None => b tt end.

(** RepeatMatcher of the standard for the body matcher [m]: the captures
    of the body are reset before every iteration, an iteration that is
    not required and reads nothing fails, a greedy quantifier tries one
    more iteration before the continuation and a lazy one the
    continuation first.  Every iteration that is not required reads a
    character, so [fuel] above the input left plus the required
    iterations is never used up. *)
Fixpoint repeatMatcher (m : Matcher) (gs : list nat) (greedy : bool)
  (k : Cont) (fuel mn : nat) (mx : option nat) (x : MState) {struct fuel}
  : option MState :=
  match fuel with
  | O => None
  | S fuel' =>
      match mx with
      | Some O => k x
      | _ =>
          let d (y : MState) : option MState :=
            if Nat.eqb mn 0 && Nat.eqb (pos y) (pos x) then None
            else repeatMatcher m gs greedy k fuel' (Nat.pred mn)
                   (option_map Nat.pred mx) y in
          let xr := clearCaps gs x in
          if negb (Nat.eqb mn 0) then m xr d
          else if greedy then orElse (m xr d) (fun _ => k x)
          else orElse (k x) (fun _ => m xr d)
      end
  end.

(** The matcher of [r] from state [x] with continuation [k]. *)
Fixpoint run (ic : bool) (r : Re) {struct r} : Matcher :=
  fun x k =>
    match r with
    | Empty => k x
    | Char c => step (fun a => Ascii.eqb (canon ic a) (canon ic c)) x k
    | Dot => step (fun a => negb (isLineTerminator a)) x k
    | Class neg items => step (fun a => xorb neg (classHas ic items a)) x k
    | Bol => if Nat.eqb (pos x) 0 then k x else None
    | Eol => match rest x with [] => k x | _ :: _ => None end
    | Seq a b => run ic a x (fun y => run ic b y k)
    | Alt a b => orElse (run ic a x k) (fun _ => run ic b x k)
    | Group i a =>
        run ic a x
          (fun y => k (setCap i (Some (firstn (pos y - pos x) (rest x))) y))
    | Quant mn mx greedy a =>
        repeatMatcher (run ic a) (groupsOf a) greedy k
          (S (S (mn + List.length (rest x)))) mn mx x
    end.

(** A compiled regular expression. *)
Record Compiled : Type := mkCompiled {
  body : Re;
  groupCount : nat;      (* the number of capturing groups *)
  ignoreCase : bool
}.

(** [new RegExp(source, flags)] for the flags the handler passes. *)
Definition compile (source flags : string) : option Compiled :=
  match parse source with
  | Some (r, n) =>
      if String.eqb flags "" then Some (mkCompiled r (Nat.pred n) false)
      else if String.eqb flags "i" then Some (mkCompiled r (Nat.pred n) true)
      else None
  | None => None
  end.

(** The leftmost match, every start index in turn: the text matched and
    the captures. *)
Fixpoint searchFrom (re : Compiled) (s : list ascii) (i : nat)
  : option (list ascii * list (option (list ascii))) :=
  match
    run (ignoreCase re) (body re)
      (mkState s i (repeat None (groupCount re))) Some
  with
  | Some z => Some (firstn (pos z - i) s, caps z)
  | None =>
      match s with
      | [] => None
      | _ :: s' => searchFrom re s' (S i)
      end
  end.

(** [s.match(re)]: the match array, the whole match first. *)
Definition exec (s : string) (re : Compiled)
  : option (list (option string)) :=
  match searchFrom re (list_ascii_of_string s) 0 with
  | Some (whole, cs) =>
      Some (Some (string_of_list_ascii whole)
            :: map (option_map string_of_list_ascii) cs)
  | None => None
  end.

(** The regular expression is one alternative that starts with [^] and
    ends with [$]. *)
Fixpoint endsEol (r : Re) : bool :=
  match r with
  | Seq Eol Empty => true
  | Seq _ b => endsEol b
  | _ => false
  end.

Definition anchored (r : Re) : bool :=
  match r with
  | Seq Bol b => endsEol b
  | _ => false
  end.

(** *** Vocabulary of the engine's properties *)

(** [y] is reached from [x] by reading input: the index and the input
    left add up to the same length. *)
Definition reach (x y : MState) : Prop :=
  pos y + List.length (rest y) = pos x + List.length (rest x).

(** A matcher succeeds only through its continuation, called on a state
    reached from the start state. *)
Definition respects (m : Matcher) : Prop :=
  forall (x : MState) (k : Cont) (z : MState),
    m x k = Some z -> exists y, k y = Some z /\ reach x y.

End Regex.

(* ================================================================== *)
(** ** URL parsing for a fragment of the URL syntax

    [scheme://host[:port][/path][?query][#fragment]] with the scheme http
    or https as an absolute URL,
    and a path-absolute reference ([/path[?query][#fragment]]) against
    such a base.  No percent-encoding and no dot-segment removal: inputs
    that would need them, and any other input, are outside the fragment
    and reported like an unparsable one; no statement below uses one. *)

Module UrlParse.

Local Open Scope char_scope.
Local Open Scope list_scope.

(** The prefix of [s] before the first character satisfying [stop], and
    the rest from that character on. *)
Fixpoint splitAt (stop : ascii -> bool) (s : list ascii)
  : list ascii * list ascii :=
  match s with
  | [] => ([], [])
  | c :: s' =>
      if stop c then ([], s)
      else let '(a, b) := splitAt stop s' in (c :: a, b)
  end.

Definition plain (c : ascii) : bool :=
  Regex.isWordChar c || Ascii.eqb c "-" || Ascii.eqb c "." || Ascii.eqb c "/"
  || Ascii.eqb c "=" || Ascii.eqb c "&".

Definition str (l : list ascii) : string := string_of_list_ascii l.

(** Path, query and fragment at the head of [s]. *)
Definition tailParts (s : list ascii)
  : option (string * option string * option string) :=
  let '(p, r) := splitAt (fun c => Ascii.eqb c "?" || Ascii.eqb c "#") s in
  let '(q, r) :=
    match r with
    | "?" :: r' =>
        let '(q, r'') := splitAt (fun c => Ascii.eqb c "#") r' in
        (Some q, r'')
    | _ => (None, r)
    end in
  let f := match r with "#" :: r' => Some r' | _ => None end in
  if forallb plain p
     && forallb plain (match q with Some q => q | None => [] end)
     && forallb plain (match f with Some f => f | None => [] end)
  then Some (str p, option_map str q, option_map str f)
  else None.

(** The default port of a scheme is not kept. *)
Definition defaultPort (sch : string) : string :=
  if String.eqb sch "https" then "443"%string else "80"%string.

Definition absolute (input : string) : option URL :=
  let s := list_ascii_of_string input in
  let '(sch, r) := splitAt (fun c => Ascii.eqb c ":") s in
  match r with
  | ":" :: "/" :: "/" :: r' =>
      let '(auth, r'') :=
        splitAt (fun c => Ascii.eqb c "/" || Ascii.eqb c "?"
                          || Ascii.eqb c "#") r' in
      let '(h, pt) := splitAt (fun c => Ascii.eqb c ":") auth in
      let prt :=
        match pt with
        | ":" :: p => if forallb Js.isDigit p then Some (Some (str p))
                      else None
        | _ => Some None
        end in
      match h, prt, tailParts r'' with
      | _ :: _, Some prt, Some (p, q, f) =>
          if (String.eqb (str sch) "http" || String.eqb (str sch) "https")
             && forallb (fun c => (Regex.isWordChar c || Ascii.eqb c "-"
                                   || Ascii.eqb c ".")
                                  && negb (Regex.inRange "A" "Z" c)) h
          then
            Some (Url.mkURL (str sch) "" "" (Some (str h))
                    (match prt with
                     | Some pn =>
                         if String.eqb pn "" || String.eqb pn (defaultPort (str sch))
                         then None else Some pn
                     | None => None
                     end)
                    (if String.eqb p "" then "/"%string else p) q f)
          else None
      | _, _, _ => None
      end
  | _ => None
  end.

Definition parse (input : string) (base : option string) : option URL :=
  match absolute input, base with
  | Some u, _ => Some u
  | None, Some b =>
      match absolute b, list_ascii_of_string input with
      | Some bu, "/" :: "/" :: _ => None
      | Some bu, "/" :: s =>
          match tailParts ("/" :: s) with
          | Some (p, q, f) =>
              Some (Url.mkURL (Url.scheme bu) (Url.username bu)
                      (Url.password bu) (Url.host bu) (Url.port bu) p q f)
          | None => None
          end
      | _, _ => None
      end
  | None, None => None
  end.

End UrlParse.

(** The runtime made of the two fragments. *)
Definition fragmentRuntime : JsRuntime := {|
  RegExp := Regex.Compiled;
  RegExp_new := Regex.compile;
  String_match := Regex.exec;
  URL_new := UrlParse.parse
|}.

(* ================================================================== *)
(** ** Vocabulary of the statements *)

Section Vocabulary.

Context {rt : JsRuntime}.

(** The rule's domain restriction lets the request through: no domain, an
    empty one, or the request's hostname. *)
Definition domainApplies (rule : RedirectRule) (u : URL) : Prop :=
  match domain rule with
  | None => True
  | Some d => d = "" \/ d = Url.hostname u
  end.

(** What the pattern matcher says of the rule's pattern on the request. *)
Definition patternOutcome (rule : RedirectRule) (u : URL)
  : Exceptional (option MatchResult) :=
  matchPath (Url.pathname u) (from rule) (isCaseSensitive rule).

(** The rule matches the request, with match result [m]. *)
Definition hits (rule : RedirectRule) (u : URL) (m : MatchResult) : Prop :=
  domainApplies rule u /\ patternOutcome rule u = Ok (Some m).

(** The rule does not match the request: its domain excludes the request,
    or its pattern compiles and does not match the path. *)
Definition misses (rule : RedirectRule) (u : URL) : Prop :=
  ~ domainApplies rule u \/ patternOutcome rule u = Ok None.

(** The rules of a request that passed preprocessing. *)
Definition activeRules (env : Env) (cache : Cache) (now : Z) (net : Network)
  : list RedirectRule := fst (fst (loadRules env cache now net)).

(** A failed refresh: the source is unreachable, answers with a status
    that is not a success, or sends a body that does not parse, is not an
    array or is an empty array. *)
Inductive failedFetch : FetchResult -> Prop :=
| failed_unreachable : failedFetch NetworkFailure
| failed_status : forall body, failedFetch (HttpResponse false body)
| failed_parse : failedFetch (HttpResponse true None)
| failed_not_array : failedFetch (HttpResponse true (Some JOther))
| failed_empty : failedFetch (HttpResponse true (Some (JArray []))).

(** The cache holds no rule set that is still fresh at [now]. *)
Definition absentOrStale (cache : Cache) (now : Z) : Prop :=
  cachedRules cache = None \/ CACHE_TTL <= now - cacheTimestamp cache.

(** The translation of one character of a literal pattern. *)
Definition literalChar (c : ascii) : string :=
  if Ascii.eqb c "*" then "(.*)"
  else if Ascii.eqb c "/" then "\/"
  else String c EmptyString.

Fixpoint translate (pattern : string) : string :=
  match pattern with
  | EmptyString => EmptyString
  | String c s => literalChar c ++ translate s
  end.

(** The pattern is read as a regular expression as it stands. *)
Definition isRegexPattern (pattern : string) : bool :=
  (Js.includes "(" pattern && Js.includes ")" pattern)%bool.

End Vocabulary.

(** *** Capture substitution *)

(** The Nth capture as the template sees it, [i = N - 1]: the empty
    string when the index does not exist or the group took no part. *)
Definition nthCapture (caps : list (option string)) (i : nat) : string :=
  match nth_error caps i with
  | Some (Some s) => s
  | _ => ""
  end.

Definition noDollar (s : string) : Prop := Js.includes "$" s = false.

Definition allDigits (ds : list ascii) : Prop := forallb Js.isDigit ds = true.

Definition notDigitHead (s : string) : Prop :=
  match s with
  | EmptyString => True
  | String c _ => Js.isDigit c = false
  end.

(** *** The pattern matcher *)

(** The regular expression [^body$] run on the path, as [matchPath] runs
    it: a SyntaxError when it does not compile, no-match when it finds no
    match, and otherwise the match array without its first entry. *)
Definition runAnchored {rt : JsRuntime} (body_ : string)
  (caseSensitive_ : bool) (path : string) : Exceptional (option MatchResult) :=
  match RegExp_new ("^" ++ body_ ++ "$")
          (if caseSensitive_ then "" else "i") with
  | None => Raise SyntaxError
  | Some regex =>
      match String_match path regex with
      | Some m => Ok (Some (mkMatch (tl m)))
      | None => Ok None
      end
  end.

(** The matcher as C4 words it: a pattern with both parentheses as it
    stands, any other with each star turned into a greedy capturing
    wildcard, and nothing else done to it. *)
Definition regexSourceAsStated (pattern : string) : string :=
  if isRegexPattern pattern then pattern
  else Js.replaceAll "*" "(.*)" pattern.

Definition matchPathAsStated {rt : JsRuntime} (path pattern : string)
  (caseSensitive_ : bool) : Exceptional (option MatchResult) :=
  runAnchored (regexSourceAsStated pattern) caseSensitive_ path.

(** *** Rules that raise nothing *)

(** The pattern of the rule compiles. *)
Definition compiles {rt : JsRuntime} (rule : RedirectRule) : Prop :=
  RegExp_new ("^" ++ regexSource (from rule) ++ "$")
    (if isCaseSensitive rule then "" else "i") <> None.

(** The destination of the rule resolves to a URL for the match. *)
Definition resolvesFor {rt : JsRuntime} (rule : RedirectRule) (u : URL)
  : Prop :=
  forall m : MatchResult,
    patternOutcome rule u = Ok (Some m) ->
    exists d, resolveUrl (substitute (captures m) (to rule)) u = Ok d.

(** Nothing in the evaluation of the rule on the request raises. *)
Definition soundRule {rt : JsRuntime} (rule : RedirectRule) (u : URL)
  : Prop :=
  domainApplies rule u ->
  compiles rule /\ resolvesFor rule u
  /\ isRedirectStatus (statusOrDefault rule) = true.

(* ================================================================== *)
(** ** Example inputs *)

Definition exampleUrl (sch path : string) (q : option string) : URL :=
  Url.mkURL sch "" "" (Some "example.com") None path q None.

Definition getRequest (u : URL) : Request := mkRequest u "GET" None.

Definition plainEnv : Env := mkEnv (Some "true") (Some "none") None None.

Definition gistEnv : Env :=
  mkEnv (Some "true") (Some "none")
    (Some "https://gist.example/redirects.json") None.

Definition cacheOf (rules : list RedirectRule) (at_ : Z) : Cache :=
  mkCache (Some rules) at_.

Definition offline : Network := fun _ => NetworkFailure.

Definition serving (rules : list RedirectRule) : Network :=
  fun _ => HttpResponse true (Some (JArray rules)).

Definition simpleRule (from_ to_ : string) : RedirectRule :=
  mkRule from_ to_ None None None None.

Definition emptyDomainRule : RedirectRule :=
  mkRule "/x" "/y" None None None (Some "").

Definition bookRule : RedirectRule :=
  mkRule "/" "https://calendar.app.google/6TBBkNxv1fH7etaj6" (Some 301)
    (Some false) None (Some "book.carlosguerrero.com").

Definition brokenRule : RedirectRule :=
  simpleRule "/user/([0-9]+" "/profile/$1".

(* ================================================================== *)
(** ** Vocabulary of the further properties *)

(** The request is not upgraded to https: it is not an http request, or
    FORCE_HTTPS is ["false"]. *)
Definition notUpgraded (u : URL) (env : Env) : Prop :=
  Url.protocol u <> "http:" \/ FORCE_HTTPS env = Some "false".

(** No rule source is configured: GIST_CONFIG_URL is missing or empty. *)
Definition noSource (env : Env) : Prop :=
  GIST_CONFIG_URL env = None \/ GIST_CONFIG_URL env = Some "".

(** No admin key is configured: ADMIN_KEY is missing or empty. *)
Definition noAdminKey (env : Env) : Prop :=
  ADMIN_KEY env = None \/ ADMIN_KEY env = Some "".

(** The caches a worker can hold: the one it starts with, and the one any
    request leaves behind. *)
Inductive reachable {rt : JsRuntime} : Cache -> Prop :=
| reachable_start : reachable initialCache
| reachable_request :
    forall (cache : Cache) (req : Request) (env : Env) (now : Z)
           (net : Network),
      reachable cache ->
      reachable (cacheAfter (fetch req env cache now net)).

(** The statuses the handler answers with. *)
Definition handlerStatuses : list Z := [200; 301; 302; 303; 307; 308; 401; 404].

(** The rule is scoped to another host than the request's. *)
Definition foreignRule (rule : RedirectRule) (u : URL) : Prop :=
  exists d, domain rule = Some d /\ d <> "" /\ d <> Url.hostname u.

(** *** Patterns without operators *)

(** The characters the pattern syntax gives a meaning to. *)
Definition operatorChars : list ascii :=
  list_ascii_of_string "^$\.*+?()[]{}|".

(** A character that stands for itself in a pattern. *)
Definition plainChar (c : ascii) : bool :=
  negb (existsb (Ascii.eqb c) operatorChars).

Definition plainPattern (pattern : string) : Prop :=
  forallb plainChar (list_ascii_of_string pattern) = true.

(** [s] without the prefix [p], when [s] starts with [p] up to the
    canonicalization of the regular expressions ([ic]: ignoring the case
    of the ASCII letters). *)
Fixpoint stripPrefix (ic : bool) (p s : list ascii) : option (list ascii) :=
  match p, s with
  | [], _ => Some s
  | c :: p', a :: s' =>
      if Ascii.eqb (Regex.canon ic a) (Regex.canon ic c)
      then stripPrefix ic p' s' else None
  | _ :: _, [] => None
  end.

(** [s] is [p] up to canonicalization. *)
Definition sameText (ic : bool) (p s : list ascii) : bool :=
  match stripPrefix ic p s with
  | Some [] => true
  | _ => false
  end.

(** The regular expression of the characters of [p], one after the
    other, followed by [tail]. *)
Fixpoint charsThen (p : list ascii) (tail : Regex.Re) : Regex.Re :=
  match p with
  | [] => tail
  | c :: p' => Regex.Seq (Regex.Char c) (charsThen p' tail)
  end.

(** The characters of a plain pattern as [matchPath] writes them in the
    regular expression: the slash escaped, the others as they are. *)
Fixpoint escaped (p : list ascii) : list ascii :=
  match p with
  | [] => []
  | c :: p' =>
      if Ascii.eqb c "/" then "\"%char :: "/"%char :: escaped p'
      else c :: escaped p'
  end.

(** The input does not start with a quantifier. *)
Definition noQuantifierHead (s : list ascii) : Prop :=
  match s with
  | [] => True
  | c :: _ => c <> "*"%char /\ c <> "+"%char /\ c <> "?"%char
  end.

(* ================================================================== *)
(** ** Properties of the rule loop *)

Section Resolve.

Context {rt : JsRuntime}.

Lemma truthy_false_iff (s : string) : Js.truthy s = false <-> s = "".
Proof. destruct s; simpl; split; congruence. Qed.

Lemma truthy_true_iff (s : string) : Js.truthy s = true <-> s <> "".
Proof. destruct s; simpl; split; congruence. Qed.

Lemma domainSkips_true_iff (rule : RedirectRule) (u : URL) :
  domainSkips rule u = true <->
  exists d, domain rule = Some d /\ d <> "" /\ d <> Url.hostname u.
Proof.
  unfold domainSkips. destruct (domain rule) as [d|].
  - rewrite andb_true_iff, negb_true_iff, truthy_true_iff.
    unfold Js.strictEq. rewrite String.eqb_neq. split.
    + intros [H1 H2]. exists d. auto.
    + intros (d' & E & H1 & H2). injection E as <-. auto.
  - split; [discriminate | intros (d & E & _); discriminate].
Qed.

Lemma domainSkips_false_iff (rule : RedirectRule) (u : URL) :
  domainSkips rule u = false <-> domainApplies rule u.
Proof.
  unfold domainSkips, domainApplies. destruct (domain rule) as [d|].
  - rewrite andb_false_iff, negb_false_iff, truthy_false_iff.
    unfold Js.strictEq. rewrite String.eqb_eq. tauto.
  - tauto.
Qed.

Lemma resolve_miss (u : URL) (rule : RedirectRule)
  (rest : list RedirectRule) :
  misses rule u -> resolve u (rule :: rest) = resolve u rest.
Proof.
  intros [Hd | Hp]; simpl.
  - destruct (domainSkips rule u) eqn:E; [reflexivity|].
    apply domainSkips_false_iff in E. contradiction.
  - destruct (domainSkips rule u); [reflexivity|].
    unfold patternOutcome in Hp. rewrite Hp. reflexivity.
Qed.

Lemma resolve_hit (u : URL) (rule : RedirectRule) (m : MatchResult)
  (rest : list RedirectRule) :
  hits rule u m ->
  resolve u (rule :: rest) = (r <- redirectFor rule m u ;; Ok (Some r)).
Proof.
  intros [Hd Hp]. simpl.
  apply domainSkips_false_iff in Hd. rewrite Hd.
  unfold patternOutcome in Hp. rewrite Hp. reflexivity.
Qed.

Lemma resolve_skip_prefix (u : URL) (pre rest : list RedirectRule) :
  Forall (fun r => misses r u) pre ->
  resolve u (pre ++ rest)%list = resolve u rest.
Proof.
  induction 1 as [|r pre Hr _ IH]; [reflexivity|].
  rewrite <- app_comm_cons, resolve_miss by assumption. exact IH.
Qed.

Lemma redirectFor_shape (rule : RedirectRule) (m : MatchResult) (u : URL)
  (r : Response) :
  redirectFor rule m u = Ok r -> exists loc c, r = Redirect loc c.
Proof.
  unfold redirectFor, bindE, Response_redirect.
  destruct (destination rule m u); [|discriminate].
  destruct (isRedirectStatus _); [|discriminate].
  intros [= <-]. eauto.
Qed.

(** The loop falls through only when every rule misses. *)
Lemma resolve_none_inv (u : URL) (rules : list RedirectRule) :
  resolve u rules = Ok None -> Forall (fun r => misses r u) rules.
Proof.
  induction rules as [|rule rules IH]; intros H; [constructor|].
  simpl in H. destruct (domainSkips rule u) eqn:E.
  - constructor; [|auto]. left. intros Hd.
    apply domainSkips_false_iff in Hd. congruence.
  - unfold bindE in H.
    destruct (matchPath _ _ _) as [[m|]|e] eqn:Hm; try discriminate.
    + destruct (redirectFor rule m u); discriminate.
    + constructor; [|auto]. right. exact Hm.
Qed.

(** A response of the loop is the redirect of a rule that hits, every
    rule before it missing. *)
Lemma resolve_some_inv (u : URL) (rules : list RedirectRule) (r : Response) :
  resolve u rules = Ok (Some r) ->
  exists pre rule post m,
    rules = (pre ++ rule :: post)%list
    /\ Forall (fun r' => misses r' u) pre
    /\ hits rule u m
    /\ redirectFor rule m u = Ok r.
Proof.
  induction rules as [|rule rules IH]; intros H; [discriminate|].
  assert (Hrec : resolve u rules = Ok (Some r) -> misses rule u ->
    exists pre rule' post m,
      (rule :: rules) = (pre ++ rule' :: post)%list
      /\ Forall (fun r' => misses r' u) pre
      /\ hits rule' u m
      /\ redirectFor rule' m u = Ok r).
  { intros H' Hm. destruct (IH H') as (pre & r' & post & m & -> & F & Hh & Hr).
    exists (rule :: pre), r', post, m. repeat split; auto. apply Hh. apply Hh. }
  simpl in H. destruct (domainSkips rule u) eqn:E.
  - apply Hrec; [exact H|]. left. intros Hd.
    apply domainSkips_false_iff in Hd. congruence.
  - unfold bindE in H.
    destruct (matchPath _ _ _) as [[m|]|e] eqn:Hm; try discriminate.
    + destruct (redirectFor rule m u) as [r'|] eqn:Hr; [|discriminate].
      injection H as <-.
      exists [], rule, rules, m. repeat split; auto.
      apply domainSkips_false_iff; exact E.
    + apply Hrec; [exact H|]. right. exact Hm.
Qed.

End Resolve.

(* ================================================================== *)
(** ** C1: first match wins, domain scoping *)

(** C1, as stated, fails: a rule whose [domain] is the empty string has
    the field set, and the field differs from the hostname
    [example.com], yet the rule is not skipped: on
    [https://example.com/x] the rule [{domain: "", from: "/x", to: "/y"}]
    redirects, where skipping it would end the loop without a response.
    Besides, a rule whose pattern does not compile, placed before the
    earliest rule that matches, makes the resolver raise instead of
    returning the decision of that rule. *)
Lemma empty_domain_rule_is_not_skipped :
  domain emptyDomainRule = Some ""
  /\ "" <> Url.hostname (exampleUrl "https" "/x" None)
  /\ resolve (rt := fragmentRuntime) (exampleUrl "https" "/x" None)
       [emptyDomainRule]
     = Ok (Some (Redirect "https://example.com/y" 301))
  /\ resolve (rt := fragmentRuntime) (exampleUrl "https" "/x" None) []
     = Ok None
  /\ hits (rt := fragmentRuntime) (simpleRule "/x" "/y")
       (exampleUrl "https" "/x" None) (mkMatch [])
  /\ resolve (rt := fragmentRuntime) (exampleUrl "https" "/x" None)
       [brokenRule; simpleRule "/x" "/y"]
     = Raise SyntaxError.
Proof.
  repeat split; try reflexivity. discriminate.
Qed.

(** C1 (amended): the resolver returns the decision computed from the
    earliest rule that matches in domain and pattern, every rule before it
    being skipped or evaluated to no-match, whatever rules follow; and a
    rule whose [domain] is a non-empty string different from the request's
    hostname is skipped, whatever its pattern. *)
Theorem first_match_wins (rt : JsRuntime) (u : URL) :
  (forall (pre post : list RedirectRule) (rule : RedirectRule)
          (m : MatchResult),
      Forall (fun r => misses r u) pre ->
      hits rule u m ->
      resolve u (pre ++ rule :: post)%list
      = (r <- redirectFor rule m u ;; Ok (Some r)))
  /\ (forall (rule : RedirectRule) (d : string) (rest : list RedirectRule),
         domain rule = Some d -> d <> "" -> d <> Url.hostname u ->
         resolve u (rule :: rest) = resolve u rest).
Proof.
  split.
  - intros pre post rule m Hpre Hhit.
    rewrite resolve_skip_prefix by assumption.
    apply resolve_hit. assumption.
  - intros rule d rest Hd Hne Hhost. apply resolve_miss. left.
    unfold domainApplies. rewrite Hd. tauto.
Qed.

Lemma first_match_wins_witness :
  let u := Url.mkURL "https" "" "" (Some "book.example.com") None "/" None None
  in
  (Forall (fun r => misses (rt := fragmentRuntime) r u)
     [bookRule; simpleRule "/blog/*" "/articles/$1"]
   /\ hits (rt := fragmentRuntime) (simpleRule "/" "/home") u (mkMatch []))
  /\ resolve (rt := fragmentRuntime) u
       ([bookRule; simpleRule "/blog/*" "/articles/$1"]
        ++ simpleRule "/" "/home" :: [simpleRule "/(.*)" "/late"])%list
     = Ok (Some (Redirect "https://book.example.com/home" 301))
  /\ resolve (rt := fragmentRuntime) u [bookRule] = Ok None.
Proof.
  intros u.
  assert (Hpre : Forall (fun r => misses (rt := fragmentRuntime) r u)
                   [bookRule; simpleRule "/blog/*" "/articles/$1"]).
  { apply Forall_cons; [|apply Forall_cons; [|apply Forall_nil]].
    - left. intros [H|H]; discriminate H.
    - right. reflexivity. }
  assert (Hhit : hits (rt := fragmentRuntime) (simpleRule "/" "/home") u
                   (mkMatch [])).
  { split; [exact I | reflexivity]. }
  split; [split; assumption|]. split.
  - rewrite (proj1 (first_match_wins fragmentRuntime u) _
               [simpleRule "/(.*)" "/late"] _ _ Hpre Hhit).
    reflexivity.
  - rewrite (proj2 (first_match_wins fragmentRuntime u) bookRule
               "book.carlosguerrero.com" []); [reflexivity| reflexivity | |];
      discriminate.
Defined.

(* ================================================================== *)
(** ** The handler after preprocessing *)

Lemma fetch_passed (rt : JsRuntime) (req : Request) (env : Env)
  (cache : Cache) (now : Z) (net : Network) :
  preprocess (url req) env = None ->
  fetch req env cache now net
  = mkRun
      (r <- resolve (url req) (activeRules env cache now net) ;;
       match r with
       | Some r => Ok r
       | None => Ok (fallback req env (activeRules env cache now net))
       end)
      (snd (fst (loadRules env cache now net)))
      (snd (loadRules env cache now net)).
Proof.
  intros H. unfold fetch, activeRules. rewrite H.
  destruct (loadRules env cache now net) as [[rules c] log]. reflexivity.
Qed.

(* ================================================================== *)
(** ** C10: rule resolution comes before the endpoints *)



(* ================================================================== *)
(** ** C8: forced HTTPS comes first *)

Lemma append_colon_inj (s t : string) : s ++ ":" = t ++ ":" -> s = t.
Proof.
  revert t. induction s as [|a s IH]; intros [|b t] H; simpl in H.
  - reflexivity.
  - injection H as _ H. destruct t; discriminate.
  - injection H as _ H. destruct s; discriminate.
  - injection H as -> H. f_equal. auto.
Qed.

Lemma optIs_false_iff (x : option string) (lit : string) :
  Js.optIs x lit = false <-> x <> Some lit.
Proof.
  unfold Js.optIs. destruct x as [v|].
  - rewrite String.eqb_neq. split; congruence.
  - split; [discriminate | reflexivity].
Qed.

(** C8: an http request handled while FORCE_HTTPS is not ["false"] is
    answered at once with a 301 to the URL with the scheme https and the
    same host, path and query; the cache is not touched and nothing is
    fetched, whatever the www policy, the rules, the cache and the
    requested path are. *)
Theorem https_upgrade_first (rt : JsRuntime) (req : Request) (env : Env)
  (cache : Cache) (now : Z) (net : Network) :
  Url.protocol (url req) = "http:" ->
  FORCE_HTTPS env <> Some "false" ->
  fetch req env cache now net
  = mkRun (Ok (Redirect (Url.toString (Url.setProtocolHttps (url req))) 301))
      cache []
  /\ Url.protocol (Url.setProtocolHttps (url req)) = "https:"
  /\ Url.hostname (Url.setProtocolHttps (url req)) = Url.hostname (url req)
  /\ Url.pathname (Url.setProtocolHttps (url req)) = Url.pathname (url req)
  /\ Url.query (Url.setProtocolHttps (url req)) = Url.query (url req)
  /\ (Url.port (url req) <> Some "443" ->
      exists rest,
        Url.toString (url req) = "http" ++ rest
        /\ Url.toString (Url.setProtocolHttps (url req)) = "https" ++ rest).
Proof.
  intros Hp Hf. repeat split.
  - unfold fetch, preprocess. unfold Js.strictEq. rewrite Hp.
    apply optIs_false_iff in Hf. rewrite Hf. reflexivity.
  - intros Hport.
    assert (Hs : Url.scheme (url req) = "http").
    { apply append_colon_inj. exact Hp. }
    destruct (url req) as [sch us pw h pt pa q f]. simpl in *. subst sch.
    unfold Url.toString, Url.setProtocolHttps, Url.credentials, Url.hostPort,
      Url.hostname. simpl.
    eexists. split; [reflexivity|].
    destruct pt as [p|]; [|reflexivity].
    destruct (String.eqb_spec p "443"); [congruence | reflexivity].
Qed.

Lemma https_upgrade_first_witness :
  let req := getRequest (exampleUrl "http" "/old-page" (Some "test=123")) in
  let env := mkEnv None (Some "remove") None None in
  (Url.protocol (url req) = "http:" /\ FORCE_HTTPS env <> Some "false")
  /\ fetch (rt := fragmentRuntime) req env initialCache 1000 offline
     = mkRun (Ok (Redirect "https://example.com/old-page?test=123" 301))
         initialCache [].
Proof.
  intros req env.
  assert (Hp : Url.protocol (url req) = "http:") by reflexivity.
  assert (Hf : FORCE_HTTPS env <> Some "false") by discriminate.
  split; [split; assumption|].
  exact (proj1 (https_upgrade_first fragmentRuntime req env initialCache
                  1000 offline Hp Hf)).
Defined.

(* ================================================================== *)
(** ** C2 and C3: the rule cache *)

Lemma configuredSource_some (env : Env) (src : string) :
  GIST_CONFIG_URL env = Some src -> src <> "" ->
  configuredSource env = Some src.
Proof.
  intros H Hne. unfold configuredSource. rewrite H.
  apply truthy_true_iff in Hne. rewrite Hne. reflexivity.
Qed.

Lemma loadRules_stale (env : Env) (cache : Cache) (now : Z) (net : Network) :
  absentOrStale cache now ->
  loadRules env cache now net = refresh env cache now net.
Proof.
  unfold loadRules. intros [H|H].
  - rewrite H. reflexivity.
  - destruct (cachedRules cache); [|reflexivity].
    destruct (Z.ltb_spec (now - cacheTimestamp cache) CACHE_TTL);
      [lia | reflexivity].
Qed.

Lemma refresh_fetches_once (env : Env) (cache : Cache) (now : Z)
  (net : Network) (src : string) :
  configuredSource env = Some src ->
  snd (refresh env cache now net) = [src].
Proof.
  intros H. unfold refresh. rewrite H.
  destruct (net src) as [|[] [[ext|]|]]; try reflexivity.
  destruct (0 <? Z.of_nat (List.length ext)); reflexivity.
Qed.

Lemma refresh_failed (env : Env) (cache : Cache) (now : Z) (net : Network)
  (src : string) :
  configuredSource env = Some src ->
  failedFetch (net src) ->
  refresh env cache now net = (cachedOrDefault cache, cache, [src]).
Proof.
  intros H Hf. unfold refresh. rewrite H.
  inversion Hf as [E | body E | E | E | E]; reflexivity.
Qed.

(** C2: a cached rule set younger than 300000 ms is returned without any
    fetch; with the cache absent or stale and a source configured, exactly
    one fetch is made, to that source, and when it succeeds (ok status,
    body a non-empty JSON array) the cache becomes the new set stamped
    with the current time, and the new set is returned. *)
Theorem cache_policy (env : Env) (cache : Cache) (now : Z) (net : Network) :
  (forall rules : list RedirectRule,
      cachedRules cache = Some rules ->
      now - cacheTimestamp cache < 300000 ->
      loadRules env cache now net = (rules, cache, []))
  /\ (forall src : string,
         absentOrStale cache now ->
         GIST_CONFIG_URL env = Some src -> src <> "" ->
         snd (loadRules env cache now net) = [src]
         /\ (forall ext : list RedirectRule,
                net src = HttpResponse true (Some (JArray ext)) ->
                ext <> [] ->
                loadRules env cache now net
                = (ext, mkCache (Some ext) now, [src]))).
Proof.
  split.
  - intros rules Hc Hfresh. unfold loadRules. rewrite Hc.
    destruct (Z.ltb_spec (now - cacheTimestamp cache) CACHE_TTL);
      [reflexivity | unfold CACHE_TTL in *; lia].
  - intros src Hstale Hsrc Hne.
    pose proof (configuredSource_some env src Hsrc Hne) as Hconf.
    rewrite loadRules_stale by assumption. split.
    + apply refresh_fetches_once. assumption.
    + intros ext Hnet Hext. unfold refresh. rewrite Hconf, Hnet.
      destruct ext as [|r ext]; [congruence | reflexivity].
Qed.

Lemma cache_policy_witness :
  let rules := [simpleRule "/a" "/b"] in
  (* 4 min 59 s after the fetch: served from the cache *)
  (cachedRules (cacheOf rules 1000) = Some rules /\ 300000 - 1000 < 300000)
  /\ loadRules gistEnv (cacheOf rules 1000) 300000 offline
     = (rules, cacheOf rules 1000, [])
  (* 5 min 1 s after the fetch: one fetch, and the cache replaced *)
  /\ (absentOrStale (cacheOf rules 1000) 302000
      /\ GIST_CONFIG_URL gistEnv = Some "https://gist.example/redirects.json")
  /\ loadRules gistEnv (cacheOf rules 1000) 302000
       (serving [simpleRule "/c" "/d"])
     = ([simpleRule "/c" "/d"], cacheOf [simpleRule "/c" "/d"] 302000,
        ["https://gist.example/redirects.json"]).
Proof.
  intros rules.
  assert (H1 : cachedRules (cacheOf rules 1000) = Some rules) by reflexivity.
  assert (H2 : 300000 - 1000 < 300000) by lia.
  assert (H3 : absentOrStale (cacheOf rules 1000) 302000).
  { right. unfold CACHE_TTL. simpl. lia. }
  assert (H4 : GIST_CONFIG_URL gistEnv
               = Some "https://gist.example/redirects.json") by reflexivity.
  split; [split; assumption|]. split; [|split; [split; assumption|]].
  - exact (proj1 (cache_policy gistEnv (cacheOf rules 1000) 300000 offline)
             rules H1 H2).
  - refine (proj2 (proj2 (cache_policy gistEnv (cacheOf rules 1000) 302000
                            (serving [simpleRule "/c" "/d"]))
                     _ H3 H4 _) _ eq_refl _); discriminate.
Defined.

(** C3: when the refresh attempt fails (source unreachable, status not a
    success, body that does not parse, is not an array or is empty), the
    cache is left as it was and the rules of the request are the cached
    set if there is one and the compiled-in default set otherwise; and
    whatever happens, the cache afterwards is the cache before or a
    non-empty set that was fetched, never the default set written in. *)
Theorem failed_refresh_falls_back (env : Env) (cache : Cache) (now : Z)
  (net : Network) :
  (forall src : string,
      absentOrStale cache now ->
      GIST_CONFIG_URL env = Some src -> src <> "" ->
      failedFetch (net src) ->
      loadRules env cache now net
      = (match cachedRules cache with
         | Some rules => rules
         | None => DEFAULT_REDIRECTS
         end, cache, [src]))
  /\ (snd (fst (loadRules env cache now net)) = cache
      \/ exists (src : string) (ext : list RedirectRule),
           net src = HttpResponse true (Some (JArray ext))
           /\ ext <> []
           /\ loadRules env cache now net
              = (ext, mkCache (Some ext) now, [src])).
Proof.
  split.
  - intros src Hstale Hsrc Hne Hfail.
    rewrite loadRules_stale by assumption.
    apply refresh_failed; [|assumption].
    apply configuredSource_some; assumption.
  - assert (Hr : snd (fst (refresh env cache now net)) = cache
                 \/ exists src ext,
                      net src = HttpResponse true (Some (JArray ext))
                      /\ ext <> []
                      /\ refresh env cache now net
                         = (ext, mkCache (Some ext) now, [src])).
    { unfold refresh. destruct (configuredSource env) as [src|]; [|now left].
      destruct (net src) as [|[] [[ext|]|]] eqn:Hnet; try (now left).
      destruct ext as [|r ext]; [now left|].
      right. exists src, (r :: ext). repeat split; auto. discriminate. }
    unfold loadRules. destruct (cachedRules cache) as [rules|]; [|exact Hr].
    destruct (now - cacheTimestamp cache <? CACHE_TTL); [now left | exact Hr].
Qed.

Lemma failed_refresh_falls_back_witness :
  let stale := cacheOf [simpleRule "/a" "/b"] 1000 in
  (absentOrStale stale 400000
   /\ GIST_CONFIG_URL gistEnv = Some "https://gist.example/redirects.json"
   /\ failedFetch (offline "https://gist.example/redirects.json"))
  /\ loadRules gistEnv stale 400000 offline
     = ([simpleRule "/a" "/b"], stale,
        ["https://gist.example/redirects.json"])
  /\ loadRules gistEnv initialCache 400000 (serving [])
     = (DEFAULT_REDIRECTS, initialCache,
        ["https://gist.example/redirects.json"]).
Proof.
  intros stale.
  assert (H1 : absentOrStale stale 400000).
  { right. unfold CACHE_TTL. simpl. lia. }
  assert (H2 : GIST_CONFIG_URL gistEnv
               = Some "https://gist.example/redirects.json") by reflexivity.
  assert (H3 : failedFetch (offline "https://gist.example/redirects.json"))
    by constructor.
  split; [repeat split; assumption|]. split.
  - refine (proj1 (failed_refresh_falls_back gistEnv stale 400000 offline)
              _ H1 H2 _ H3). discriminate.
  - refine (proj1 (failed_refresh_falls_back gistEnv initialCache 400000
                     (serving [])) _ _ H2 _ _).
    + left. reflexivity.
    + discriminate.
    + constructor.
Defined.

(* ================================================================== *)
(** ** C7: query preservation *)

Lemma search_nonempty_query (u : URL) :
  Url.search u <> "" ->
  exists c q, Url.query u = Some (String c q)
              /\ Url.search u = String "?" (String c q).
Proof.
  unfold Url.search. destruct (Url.query u) as [[|c q]|]; try congruence.
  intros _. exists c, q. split; reflexivity.
Qed.

Lemma setSearch_search (u d : URL) :
  Url.search u <> "" ->
  Url.query (Url.setSearch (Url.search u) d) = Url.query u
  /\ Url.search (Url.setSearch (Url.search u) d) = Url.search u.
Proof.
  intros H. destruct (search_nonempty_query u H) as (c & q & Hq & Hs).
  rewrite Hs, Hq. unfold Url.search, Url.setSearch. simpl. split; reflexivity.
Qed.

Lemma keepsQuery_true_iff (rule : RedirectRule) (u : URL) :
  keepsQuery rule u = true <->
  preserveQuery rule <> Some false /\ Url.search u <> "".
Proof.
  unfold keepsQuery. rewrite andb_true_iff, negb_true_iff, truthy_true_iff.
  destruct (preserveQuery rule) as [[|]|]; split; intros [H1 H2]; split;
    congruence.
Qed.

(** C7: the destination of a matched rule is the URL the substituted [to]
    resolves to, with its query replaced by the request's query when
    [preserveQuery] is not [false] and the request has a non-empty query
    (nothing of the template's own query is kept, the rest of the URL is
    untouched), and that URL as it is when [preserveQuery] is [false] or
    the request's query is empty; the redirect goes to that destination. *)
Theorem query_preservation (rt : JsRuntime) (rule : RedirectRule)
  (m : MatchResult) (u d : URL) :
  destination rule m u = Ok d ->
  exists d0 : URL,
    resolveUrl (substitute (captures m) (to rule)) u = Ok d0
    /\ (preserveQuery rule <> Some false -> Url.search u <> "" ->
        Url.search d = Url.search u
        /\ Url.query d = Url.query u
        /\ d = Url.setSearch (Url.search u) d0)
    /\ (preserveQuery rule = Some false \/ Url.search u = "" -> d = d0)
    /\ redirectFor rule m u
       = Response_redirect (Url.toString d) (statusOrDefault rule).
Proof.
  unfold redirectFor, destination, bindE.
  destruct (resolveUrl (substitute (captures m) (to rule)) u) as [d0|e];
    [|discriminate].
  intros [= <-]. exists d0. split; [reflexivity|].
  split; [|split; [|reflexivity]].
  - intros Hp Hs.
    assert (Hk : keepsQuery rule u = true) by (apply keepsQuery_true_iff; auto).
    rewrite Hk. destruct (setSearch_search u d0 Hs) as [Hq Hs'].
    repeat split; assumption.
  - intros H.
    destruct (keepsQuery rule u) eqn:Hk; [|reflexivity].
    apply keepsQuery_true_iff in Hk. destruct Hk as [Hp Hs].
    destruct H; contradiction.
Qed.

Lemma query_preservation_witness :
  let u := exampleUrl "https" "/old-page" (Some "test=123") in
  let rule := simpleRule "/old-page" "/new-page?from=old" in
  exists d : URL,
    destination (rt := fragmentRuntime) rule (mkMatch []) u = Ok d
    /\ Url.search d = "?test=123"
    /\ Url.toString d = "https://example.com/new-page?test=123".
Proof.
  intros u rule.
  exists (Url.mkURL "https" "" "" (Some "example.com") None "/new-page"
            (Some "test=123") None).
  assert (Hd : destination (rt := fragmentRuntime) rule (mkMatch []) u
               = Ok (Url.mkURL "https" "" "" (Some "example.com") None
                       "/new-page" (Some "test=123") None))
    by reflexivity.
  split; [exact Hd|].
  destruct (query_preservation fragmentRuntime rule (mkMatch []) u _ Hd)
    as (d0 & _ & Hkeep & _ & _).
  split; [|reflexivity].
  refine (proj1 (Hkeep _ _)); discriminate.
Defined.

(* ================================================================== *)
(** ** C6: capture substitution *)

Lemma append_nil_r (s : string) : s ++ "" = s.
Proof. induction s; simpl; congruence. Qed.

Lemma append_assoc (a b c : string) : (a ++ b) ++ c = a ++ (b ++ c).
Proof. induction a; simpl; congruence. Qed.

Lemma substitute_plain_prefix (caps : list (option string))
  (pre rest : string) :
  noDollar pre ->
  substituteFrom caps None (pre ++ rest)
  = pre ++ substituteFrom caps None rest.
Proof.
  unfold noDollar. induction pre as [|c pre IH]; intros H; [reflexivity|].
  simpl in H. apply orb_false_iff in H. destruct H as [Hc Hpre].
  simpl. rewrite Hc, IH by assumption. reflexivity.
Qed.

Lemma substitute_digits (caps : list (option string)) (ds acc : list ascii)
  (rest : string) :
  allDigits ds ->
  substituteFrom caps (Some acc) (string_of_list_ascii ds ++ rest)
  = substituteFrom caps (Some (acc ++ ds)%list) rest.
Proof.
  unfold allDigits. revert acc.
  induction ds as [|d ds IH]; intros acc H; simpl.
  - rewrite app_nil_r. reflexivity.
  - simpl in H. apply andb_true_iff in H. destruct H as [Hd Hds].
    rewrite Hd, IH by assumption. rewrite <- app_assoc. reflexivity.
Qed.

Lemma substitute_flush (caps : list (option string)) (ds : list ascii)
  (rest : string) :
  notDigitHead rest ->
  substituteFrom caps (Some ds) rest
  = flushPending caps (Some ds) ++ substituteFrom caps None rest.
Proof.
  destruct rest as [|c rest]; simpl; intros H.
  - rewrite append_nil_r. reflexivity.
  - rewrite H. reflexivity.
Qed.

Lemma captureOrEmpty_nth (caps : list (option string)) (ds : list ascii)
  (i : nat) :
  Js.parseInt ds = N.of_nat (S i) ->
  captureOrEmpty caps ds = nthCapture caps i.
Proof.
  intros H. unfold captureOrEmpty, nthCapture. rewrite H.
  destruct (N.of_nat (S i)) as [|p] eqn:E; [lia|].
  replace (N.to_nat (N.pred (N.pos p))) with i by lia. reflexivity.
Qed.

(** C6: in the template, a dollar sign followed by the digits of N >= 1
    (as many digits as follow) is replaced by the Nth capture, or by the
    empty string when there is no such capture, and the text around the
    placeholders is copied; with the pattern [/blog/*] and the template
    [/articles/$1], the path [/blog/my-post] gives [/articles/my-post]. *)
Theorem capture_substitution (caps : list (option string)) :
  (forall (pre rest : string) (ds : list ascii) (i : nat),
      noDollar pre -> allDigits ds -> notDigitHead rest ->
      Js.parseInt ds = N.of_nat (S i) ->
      substitute caps (pre ++ "$" ++ string_of_list_ascii ds ++ rest)
      = pre ++ nthCapture caps i ++ substitute caps rest)
  /\ (forall i : nat, List.length caps <= i -> nthCapture caps i = "")%nat
  /\ (forall pre : string, noDollar pre -> substitute caps pre = pre)
  /\ (exists m : MatchResult,
         matchPath (rt := fragmentRuntime) "/blog/my-post" "/blog/*" true
         = Ok (Some m)
         /\ substitute (captures m) "/articles/$1" = "/articles/my-post").
Proof.
  repeat split.
  - intros pre rest ds i Hpre Hds Hrest Hn. unfold substitute.
    rewrite substitute_plain_prefix by assumption. f_equal.
    change (substituteFrom caps None ("$" ++ string_of_list_ascii ds ++ rest))
      with (substituteFrom caps (Some []) (string_of_list_ascii ds ++ rest)).
    rewrite substitute_digits by assumption.
    rewrite substitute_flush by assumption. f_equal.
    simpl app. destruct ds as [|d ds]; [discriminate Hn|].
    simpl. apply captureOrEmpty_nth. exact Hn.
  - intros i Hi. unfold nthCapture.
    apply nth_error_None in Hi. rewrite Hi. reflexivity.
  - intros pre Hpre. unfold substitute.
    rewrite <- (append_nil_r pre) at 1.
    rewrite substitute_plain_prefix by assumption.
    simpl. apply append_nil_r.
  - exists (mkMatch [Some "my-post"]). split; reflexivity.
Qed.

Lemma capture_substitution_witness :
  (noDollar "/articles/" /\ allDigits ["1"%char] /\ notDigitHead "/$2"
   /\ Js.parseInt ["1"%char] = N.of_nat 1)
  /\ substitute [Some "my-post"] "/articles/$1/$2"
     = "/articles/" ++ "my-post" ++ "/"
  /\ outcome (fetch (rt := fragmentRuntime)
                (getRequest (exampleUrl "https" "/blog/my-post" None))
                plainEnv initialCache 1000 offline)
     = Ok (Redirect "https://example.com/articles/my-post" 301).
Proof.
  assert (H1 : noDollar "/articles/") by reflexivity.
  assert (H2 : allDigits ["1"%char]) by reflexivity.
  assert (H3 : notDigitHead "/$2") by reflexivity.
  assert (H4 : Js.parseInt ["1"%char] = N.of_nat 1) by reflexivity.
  split; [repeat split; assumption|]. split; [|reflexivity].
  exact (proj1 (capture_substitution [Some "my-post"])
           "/articles/" "/$2" ["1"%char] 0%nat H1 H2 H3 H4).
Defined.

(* ================================================================== *)
(** ** C4 and C9: the pattern matcher *)

Lemma replaceAll_translate (pattern : string) :
  Js.replaceAll "/" "\/" (Js.replaceAll "*" "(.*)" pattern)
  = translate pattern.
Proof.
  induction pattern as [|c s IH]; [reflexivity|].
  simpl. unfold literalChar.
  destruct (Ascii.eqb_spec c "*") as [->|Hstar].
  - simpl. rewrite IH. reflexivity.
  - simpl. destruct (Ascii.eqb_spec c "/") as [->|Hslash];
      rewrite IH; reflexivity.
Qed.

Lemma translate_app (a b : string) :
  translate (a ++ b) = translate a ++ translate b.
Proof.
  induction a as [|c a IH]; [reflexivity|].
  simpl. rewrite IH, append_assoc. reflexivity.
Qed.

Lemma matchPath_runAnchored (rt : JsRuntime) (path pattern : string)
  (cs : bool) :
  matchPath path pattern cs
  = runAnchored
      (if isRegexPattern pattern then pattern else translate pattern) cs path.
Proof.
  unfold matchPath, runAnchored, regexSource, isRegexPattern.
  rewrite replaceAll_translate. reflexivity.
Qed.

(** C9: in a pattern without both parentheses, a character other than the
    star and the slash reaches the regular expression as it is, between
    the translations of what precedes and follows it, with nothing put in
    front of it; so [.] and [+] act as operators: [/a.b] matches [/axb],
    and [/a+] matches [/aaa] and not [/a+]. *)
Theorem metacharacters_pass_through (rt : JsRuntime) :
  (forall (a b path : string) (c : ascii) (cs : bool),
      isRegexPattern (a ++ String c b) = false ->
      c <> "*"%char -> c <> "/"%char ->
      regexSource (a ++ String c b) = translate a ++ String c (translate b)
      /\ matchPath path (a ++ String c b) cs
         = runAnchored (translate a ++ String c (translate b)) cs path)
  /\ matchPath (rt := fragmentRuntime) "/axb" "/a.b" true
     = Ok (Some (mkMatch []))
  /\ matchPath (rt := fragmentRuntime) "/aaa" "/a+" true
     = Ok (Some (mkMatch []))
  /\ matchPath (rt := fragmentRuntime) "/a+" "/a+" true = Ok None.
Proof.
  split; [|repeat split; reflexivity].
  intros a b path c cs Hlit Hstar Hslash.
  assert (Ht : translate (a ++ String c b)
               = translate a ++ String c (translate b)).
  { rewrite translate_app. simpl. unfold literalChar.
    destruct (Ascii.eqb_spec c "*"); [contradiction|].
    destruct (Ascii.eqb_spec c "/"); [contradiction|]. reflexivity. }
  split.
  - unfold regexSource. fold (isRegexPattern (a ++ String c b)).
    rewrite Hlit, replaceAll_translate. exact Ht.
  - rewrite matchPath_runAnchored, Hlit, Ht. reflexivity.
Qed.

Lemma metacharacters_pass_through_witness :
  (isRegexPattern ("/a" ++ String "." "b") = false
   /\ "."%char <> "*"%char /\ "."%char <> "/"%char)
  /\ regexSource "/a.b" = "\/a.b"
  /\ matchPath (rt := fragmentRuntime) "/axb" "/a.b" true
     = runAnchored (rt := fragmentRuntime) "\/a.b" true "/axb".
Proof.
  assert (H1 : isRegexPattern ("/a" ++ String "." "b") = false)
    by reflexivity.
  assert (H2 : "."%char <> "*"%char) by discriminate.
  assert (H3 : "."%char <> "/"%char) by discriminate.
  split; [repeat split; assumption|].
  exact (proj1 (metacharacters_pass_through fragmentRuntime)
           "/a" "b" "/axb" "."%char true H1 H2 H3).
Defined.

(* ================================================================== *)
(** ** C5: errors during rule resolution *)

(** C5, as stated, fails: with the rule set
    [[{from: "/user/([0-9]+", to: "/profile/$1"}]] loaded from the rule
    source, whose pattern has an opening parenthesis and no closing one,
    the request [https://example.com/health] is not answered: the
    handler raises the SyntaxError of the pattern. *)
Lemma malformed_pattern_aborts_request :
  outcome (fetch (rt := fragmentRuntime)
             (getRequest (exampleUrl "https" "/health" None))
             gistEnv initialCache 1000 (serving [brokenRule]))
  = Raise SyntaxError.
Proof. reflexivity. Qed.

(* ================================================================== *)
(** ** The engine: a match only ever moves forward through the input *)

Module RegexFacts.

Import Regex.

Local Open Scope nat_scope.

Lemma reach_refl (x : MState) : reach x x.
Proof. reflexivity. Qed.

Lemma reach_trans (x y z : MState) : reach x y -> reach y z -> reach x z.
Proof. unfold reach. lia. Qed.

Lemma clearCaps_rest_pos (gs : list nat) (x : MState) :
  rest (clearCaps gs x) = rest x /\ pos (clearCaps gs x) = pos x.
Proof.
  unfold clearCaps. revert x.
  induction gs as [|g gs IH]; intros x; simpl; [auto|].
  destruct (IH (setCap g None x)) as [-> ->]. auto.
Qed.

Lemma reach_clearCaps (gs : list nat) (x y : MState) :
  reach (clearCaps gs x) y -> reach x y.
Proof.
  unfold reach. destruct (clearCaps_rest_pos gs x) as [-> ->]. auto.
Qed.

Lemma orElse_some (a : option MState) (b : unit -> option MState)
  (z : MState) :
  orElse a b = Some z -> a = Some z \/ b tt = Some z.
Proof. destruct a; simpl; auto. Qed.

Lemma step_respects (ok : ascii -> bool) : respects (step ok).
Proof.
  intros x k z H. unfold step in H.
  destruct (rest x) as [|a s'] eqn:E; [discriminate|].
  destruct (ok a); [|discriminate].
  eexists. split; [exact H|]. unfold reach. simpl. rewrite E. simpl. lia.
Qed.

Lemma repeatMatcher_respects (m : Matcher) (gs : list nat) (greedy : bool)
  (k : Cont) :
  respects m ->
  forall (fuel mn : nat) (mx : option nat) (x z : MState),
    repeatMatcher m gs greedy k fuel mn mx x = Some z ->
    exists y, k y = Some z /\ reach x y.
Proof.
  intros Hm. induction fuel as [|fuel IH]; intros mn mx x z H;
    [discriminate|].
  assert (Hiter :
    m (clearCaps gs x)
      (fun y =>
         if Nat.eqb mn 0 && Nat.eqb (pos y) (pos x) then None
         else repeatMatcher m gs greedy k fuel (Nat.pred mn)
                (option_map Nat.pred mx) y) = Some z ->
    exists y, k y = Some z /\ reach x y).
  { intros Hi. destruct (Hm _ _ _ Hi) as (y & Hy & Hxy).
    destruct (Nat.eqb mn 0 && Nat.eqb (pos y) (pos x)); [discriminate|].
    destruct (IH _ _ _ _ Hy) as (y' & Hk & Hyy').
    exists y'. split; [exact Hk|].
    apply reach_trans with y; [|exact Hyy'].
    apply reach_clearCaps with gs. exact Hxy. }
  assert (Hstop : k x = Some z -> exists y, k y = Some z /\ reach x y).
  { intros Hk. exists x. split; [exact Hk | apply reach_refl]. }
  simpl in H. destruct mx as [[|mx]|].
  - auto.
  - destruct (negb (Nat.eqb mn 0)); [auto|].
    destruct greedy; apply orElse_some in H; destruct H; auto.
  - destruct (negb (Nat.eqb mn 0)); [auto|].
    destruct greedy; apply orElse_some in H; destruct H; auto.
Qed.

Lemma run_respects (ic : bool) (r : Re) : respects (run ic r).
Proof.
  induction r as [| c | | neg items | | | a IHa b IHb | a IHa b IHb
                 | mn mx greedy a IHa | i a IHa];
    intros x k z H; cbn [run] in H.
  - exists x. split; [exact H | apply reach_refl].
  - exact (step_respects _ _ _ _ H).
  - exact (step_respects _ _ _ _ H).
  - exact (step_respects _ _ _ _ H).
  - destruct (Nat.eqb (pos x) 0); [|discriminate].
    exists x. split; [exact H | apply reach_refl].
  - destruct (rest x) eqn:E; [|discriminate].
    exists x. split; [exact H | apply reach_refl].
  - destruct (IHa _ _ _ H) as (y & Hy & Hxy).
    destruct (IHb _ _ _ Hy) as (y' & Hk & Hyy').
    exists y'. split; [exact Hk | exact (reach_trans _ _ _ Hxy Hyy')].
  - apply orElse_some in H. destruct H as [H|H]; [apply IHa | apply IHb];
      exact H.
  - exact (repeatMatcher_respects _ _ _ _ IHa _ _ _ _ _ H).
  - destruct (IHa _ _ _ H) as (y & Hy & Hxy).
    eexists. split; [exact Hy|]. exact Hxy.
Qed.

(** A regular expression that ends with [$] succeeds only at the end of
    the input. *)
Lemma run_endsEol (ic : bool) (r : Re) :
  endsEol r = true ->
  forall (x : MState) (k : Cont) (z : MState),
    run ic r x k = Some z ->
    exists y, k y = Some z /\ reach x y /\ rest y = [].
Proof.
  induction r as [| c | | neg items | | | a IHa b IHb | a IHa b IHb
                 | mn mx greedy a IHa | i a IHa];
    intros Hends x k z H; try discriminate Hends.
  assert (Hcases : (a = Eol /\ b = Empty) \/ endsEol b = true).
  { simpl in Hends. destruct a; auto. destruct b; auto. }
  destruct Hcases as [[-> ->] | Hb].
  - simpl in H. destruct (rest x) eqn:E; [|discriminate].
    exists x. repeat split; auto.
  - simpl in H. destruct (run_respects ic a _ _ _ H) as (y & Hy & Hxy).
    destruct (IHb Hb _ _ _ Hy) as (y' & Hk & Hyy' & Hend).
    exists y'. repeat split; auto. exact (reach_trans _ _ _ Hxy Hyy').
Qed.

Lemma run_anchored (re : Compiled) (s : list ascii) (i : nat) (z : MState) :
  anchored (body re) = true ->
  run (ignoreCase re) (body re) (mkState s i (repeat None (groupCount re)))
    Some = Some z ->
  i = 0 /\ pos z = List.length s.
Proof.
  intros Ha H. destruct (body re) as [| | | | | | a b | | |];
    try discriminate Ha.
  destruct a; try discriminate Ha. simpl in Ha, H.
  destruct (Nat.eqb_spec i 0) as [->|]; [|discriminate].
  destruct (run_endsEol _ _ Ha _ _ _ H) as (y & Hy & Hxy & Hend).
  injection Hy as ->. unfold reach in Hxy. rewrite Hend in Hxy.
  simpl in Hxy. split; [reflexivity | lia].
Qed.

Lemma searchFrom_anchored (re : Compiled) (s : list ascii) (i : nat)
  (whole : list ascii) (cs : list (option (list ascii))) :
  anchored (body re) = true ->
  searchFrom re s i = Some (whole, cs) ->
  i = 0 /\ whole = s.
Proof.
  intros Ha. revert i. induction s as [|c s IH]; intros i H; simpl in H.
  - destruct (run _ _ _ _) as [z|] eqn:Hr; [|discriminate].
    destruct (run_anchored _ _ _ _ Ha Hr) as [-> Hz].
    injection H as <- _. split; [reflexivity|]. destruct (pos z - 0);
      reflexivity.
  - destruct (run _ _ _ _) as [z|] eqn:Hr.
    + destruct (run_anchored _ _ _ _ Ha Hr) as [-> Hz].
      injection H as <- _. split; [reflexivity|].
      rewrite Hz, Nat.sub_0_r. apply firstn_all.
    + destruct (IH _ H) as [Hi _]. discriminate Hi.
Qed.

(** When the compiled expression is one alternative between [^] and [$],
    a match is a match of the whole input. *)
Lemma exec_anchored (re : Compiled) (s : string)
  (m : list (option string)) :
  anchored (body re) = true ->
  exec s re = Some m ->
  exists cs, m = Some s :: cs.
Proof.
  intros Ha H. unfold exec in H.
  destruct (searchFrom re (list_ascii_of_string s) 0) as [[whole cs]|] eqn:E;
    [|discriminate].
  destruct (searchFrom_anchored _ _ _ _ _ Ha E) as [_ ->].
  injection H as <-. rewrite string_of_list_ascii_of_string. eauto.
Qed.

End RegexFacts.

(* ================================================================== *)
(** ** C4: what the matcher runs *)




(* ================================================================== *)
(** ** C5: which errors escape *)

Lemma redirect_status_below_500 (c : Z) :
  isRedirectStatus c = true -> c < 500.
Proof.
  unfold isRedirectStatus. rewrite !orb_true_iff, !Z.eqb_eq. lia.
Qed.

Lemma fallback_status (req : Request) (env : Env)
  (rules : list RedirectRule) :
  statusOf (fallback req env rules) < 500.
Proof.
  unfold fallback.
  destruct (Js.strictEq _ "/health"); [simpl; lia|].
  destruct (_ && _)%bool; [|simpl; lia].
  destruct (ADMIN_KEY env) as [key|]; [|simpl; lia].
  destruct (_ && _)%bool; simpl; lia.
Qed.

Lemma resolve_sound (rt : JsRuntime) (u : URL) (rules : list RedirectRule) :
  Forall (fun rule => soundRule rule u) rules ->
  exists o, resolve u rules = Ok o
            /\ forall r, o = Some r -> statusOf r < 500.
Proof.
  induction 1 as [|rule rules Hrule _ IH].
  - exists None. split; [reflexivity | discriminate].
  - simpl. destruct (domainSkips rule u) eqn:E; [exact IH|].
    apply domainSkips_false_iff in E.
    destruct (Hrule E) as (Hc & Hr & Hs).
    destruct (matchPath (Url.pathname u) (from rule) (isCaseSensitive rule))
      as [[m|]|e] eqn:Hm; cbn [bindE].
    + destruct (Hr m Hm) as (d & Hd).
      unfold redirectFor, destination. rewrite Hd. cbn [bindE].
      unfold Response_redirect. rewrite Hs.
      eexists. split; [reflexivity|]. intros r [= <-]. simpl.
      apply redirect_status_below_500. exact Hs.
    + exact IH.
    + exfalso. unfold compiles in Hc. unfold matchPath in Hm.
      destruct (RegExp_new _ _) as [re|]; [|congruence].
      destruct (String_match (Url.pathname u) re); discriminate.
Qed.

(** C5 (amended): a failure of the rule source never makes the handler
    fail, and a request is answered, with a status below 500, whenever
    for every rule of the active set whose domain lets the request
    through the pattern compiles, the destination of a match resolves to
    a URL and the status is a redirect status.  Errors of rule resolution
    itself are not contained: when the first rule that is not passed over
    has a pattern that does not compile, the handler raises the
    SyntaxError instead of answering. *)
Theorem resolution_errors_escape (rt : JsRuntime) (req : Request) (env : Env)
  (cache : Cache) (now : Z) (net : Network) :
  (Forall (fun rule => soundRule rule (url req))
     (activeRules env cache now net) ->
   exists r, outcome (fetch req env cache now net) = Ok r
             /\ statusOf r < 500)
  /\ (forall (pre post : list RedirectRule) (rule : RedirectRule),
         preprocess (url req) env = None ->
         activeRules env cache now net = (pre ++ rule :: post)%list ->
         Forall (fun r => misses r (url req)) pre ->
         domainApplies rule (url req) ->
         ~ compiles rule ->
         outcome (fetch req env cache now net) = Raise SyntaxError).
Proof.
  split.
  - intros Hsound. destruct (preprocess (url req) env) as [r|] eqn:Hp.
    + unfold fetch. rewrite Hp. exists r. split; [reflexivity|].
      unfold preprocess in Hp.
      repeat match type of Hp with
             | (if ?b then _ else _) = _ => destruct b
             end; try discriminate; injection Hp as <-; simpl; lia.
    + rewrite (fetch_passed rt req env cache now net Hp). simpl.
      destruct (resolve_sound rt _ _ Hsound) as (o & -> & Ho). simpl.
      destruct o as [r|].
      * exists r. split; [reflexivity | auto].
      * eexists. split; [reflexivity | apply fallback_status].
  - intros pre post rule Hp Hrules Hpre Hd Hc.
    rewrite (fetch_passed rt req env cache now net Hp). simpl.
    rewrite Hrules, resolve_skip_prefix by assumption. simpl.
    apply domainSkips_false_iff in Hd. rewrite Hd.
    unfold compiles in Hc. unfold matchPath.
    destruct (RegExp_new _ _); [|reflexivity].
    exfalso. apply Hc. discriminate.
Qed.

Lemma resolution_errors_escape_witness :
  let req := getRequest (exampleUrl "https" "/nonexistent" None) in
  let good := cacheOf [simpleRule "/a" "/b"] 0 in
  let bad := cacheOf [bookRule; brokenRule] 0 in
  Forall (fun rule => soundRule (rt := fragmentRuntime) rule (url req))
    (activeRules plainEnv good 1000 offline)
  /\ outcome (fetch (rt := fragmentRuntime) req plainEnv good 1000 offline)
     = Ok (NotFound "/nonexistent")
  /\ (preprocess (url req) plainEnv = None
      /\ Forall (fun r => misses (rt := fragmentRuntime) r (url req))
           [bookRule]
      /\ domainApplies brokenRule (url req)
      /\ ~ compiles (rt := fragmentRuntime) brokenRule)
  /\ outcome (fetch (rt := fragmentRuntime) req plainEnv bad 1000 offline)
     = Raise SyntaxError.
Proof.
  intros req good bad.
  assert (Hsound : Forall (fun rule =>
                             soundRule (rt := fragmentRuntime) rule (url req))
                     (activeRules plainEnv good 1000 offline)).
  { apply Forall_cons; [|apply Forall_nil]. intros _. split; [|split].
    - discriminate.
    - intros m Hm. discriminate Hm.
    - reflexivity. }
  assert (Hp : preprocess (url req) plainEnv = None) by reflexivity.
  assert (Hpre : Forall (fun r => misses (rt := fragmentRuntime) r (url req))
                   [bookRule]).
  { apply Forall_cons; [|apply Forall_nil].
    left. intros [H|H]; discriminate H. }
  assert (Hd : domainApplies brokenRule (url req)) by exact I.
  assert (Hc : ~ compiles (rt := fragmentRuntime) brokenRule).
  { intros H. apply H. reflexivity. }
  split; [exact Hsound|]. split; [|split; [repeat split; assumption|]].
  - destruct (proj1 (resolution_errors_escape fragmentRuntime req plainEnv
                       good 1000 offline) Hsound) as (r & Hr & _).
    reflexivity.
  - exact (proj2 (resolution_errors_escape fragmentRuntime req plainEnv bad
                    1000 offline) [bookRule] [] brokenRule Hp eq_refl Hpre
             Hd Hc).
Defined.

(* ================================================================== *)
(** ** The scenarios of the specification and of the test suite *)

Example scenario_https_upgrade :
  outcome (fetch (rt := fragmentRuntime)
             (getRequest (exampleUrl "http" "/test" None))
             plainEnv initialCache 1000 offline)
  = Ok (Redirect "https://example.com/test" 301).
Proof. reflexivity. Qed.

Example scenario_www_remove :
  outcome (fetch (rt := fragmentRuntime)
             (getRequest
                (Url.mkURL "https" "" "" (Some "www.example.com") None "/test"
                   None None))
             (mkEnv (Some "true") (Some "remove") None None) initialCache 1000
             offline)
  = Ok (Redirect "https://example.com/test" 301).
Proof. reflexivity. Qed.

Example scenario_www_add :
  outcome (fetch (rt := fragmentRuntime)
             (getRequest (exampleUrl "https" "/test" None))
             (mkEnv (Some "true") (Some "add") None None) initialCache 1000
             offline)
  = Ok (Redirect "https://www.example.com/test" 301).
Proof. reflexivity. Qed.

Example scenario_old_page :
  outcome (fetch (rt := fragmentRuntime)
             (getRequest (exampleUrl "https" "/old-page" (Some "test=123")))
             plainEnv initialCache 1000 offline)
  = Ok (Redirect "https://example.com/new-page?test=123" 301).
Proof. reflexivity. Qed.

Example scenario_no_rule :
  outcome (fetch (rt := fragmentRuntime)
             (getRequest (exampleUrl "https" "/nonexistent" None))
             plainEnv initialCache 1000 offline)
  = Ok (NotFound "/nonexistent").
Proof. reflexivity. Qed.

Example scenario_domain_rule :
  outcome (fetch (rt := fragmentRuntime)
             (getRequest
                (Url.mkURL "https" "" "" (Some "book.carlosguerrero.com") None
                   "/" None None))
             plainEnv initialCache 1000 offline)
  = Ok (Redirect "https://calendar.app.google/6TBBkNxv1fH7etaj6" 301).
Proof. reflexivity. Qed.

Example scenario_domain_rule_with_pattern :
  outcome (fetch (rt := fragmentRuntime)
             (getRequest
                (Url.mkURL "https" "" "" (Some "old.example.com") None
                   "/blog/my-post" (Some "utm_source=test") None))
             gistEnv initialCache 1000
             (serving
                [mkRule "/blog/*" "https://new.example.com/articles/$1"
                   (Some 301) (Some true) None (Some "old.example.com")]))
  = Ok (Redirect "https://new.example.com/articles/my-post?utm_source=test"
          301).
Proof. reflexivity. Qed.

Example scenario_admin_unauthorized :
  outcome (fetch (rt := fragmentRuntime)
             (getRequest (exampleUrl "https" "/admin/rules" None))
             (mkEnv (Some "true") (Some "none") None (Some "test-admin-key"))
             initialCache 1000 offline)
  = Ok Unauthorized.
Proof. reflexivity. Qed.

(** The cache over three requests: a fetch at time T fills it, a
    request at T + 4 min 59 s is served from it without a fetch, and a
    request at T + 5 min 1 s fetches again. *)
Example scenario_cache_freshness :
  let req := getRequest (exampleUrl "https" "/nonexistent" None) in
  let rules := [simpleRule "/a" "/b"] in
  let first := fetch (rt := fragmentRuntime) req gistEnv initialCache 1000
                 (serving rules) in
  let second := fetch (rt := fragmentRuntime) req gistEnv (cacheAfter first)
                  (1000 + 299000) offline in
  let third := fetch (rt := fragmentRuntime) req gistEnv (cacheAfter second)
                 (1000 + 301000) offline in
  cacheAfter first = cacheOf rules 1000
  /\ fetched first = ["https://gist.example/redirects.json"]
  /\ fetched second = []
  /\ cacheAfter second = cacheOf rules 1000
  /\ fetched third = ["https://gist.example/redirects.json"]
  /\ cacheAfter third = cacheOf rules 1000.
Proof. repeat split. Qed.

(* ================================================================== *)
(** ** The www policy (index.ts 119-126) *)

Lemma substring_all (s : string) : String.substring 0 (String.length s) s = s.
Proof. induction s as [|c s IH]; simpl; [reflexivity | rewrite IH; reflexivity]. Qed.

Lemma substringFrom_www (h : string) : Js.substringFrom 4 ("www." ++ h) = h.
Proof.
  unfold Js.substringFrom. simpl. rewrite Nat.sub_0_r. apply substring_all.
Qed.

Lemma startsWith_www (h : string) : Js.startsWith "www." ("www." ++ h) = true.
Proof. unfold Js.startsWith. simpl. destruct h; reflexivity. Qed.

Lemma notUpgraded_test (u : URL) (env : Env) :
  notUpgraded u env ->
  (Js.strictEq (Url.protocol u) "http:"
   && negb (Js.optIs (FORCE_HTTPS env) "false"))%bool = false.
Proof.
  intros [H|H].
  - unfold Js.strictEq. apply String.eqb_neq in H. rewrite H. reflexivity.
  - rewrite H. simpl. apply andb_false_r.
Qed.

(** X1: a request that is not upgraded to https, handled with WWW_REDIRECT
    ["remove"] on a hostname [www.] followed by a non-empty rest, is
    answered at once with a 301 to the same URL on the rest of the
    hostname (scheme, port, path, query and fragment kept), whatever the
    rules are; the cache is not touched and nothing is fetched. *)
Theorem www_remove_redirect (rt : JsRuntime) (req : Request) (env : Env)
  (cache : Cache) (now : Z) (net : Network) (h : string) :
  notUpgraded (url req) env ->
  WWW_REDIRECT env = Some "remove" ->
  Url.hostname (url req) = "www." ++ h ->
  h <> "" ->
  fetch req env cache now net
  = mkRun
      (Ok (Redirect
             (Url.toString
                (Url.mkURL (Url.scheme (url req)) (Url.username (url req))
                   (Url.password (url req)) (Some h) (Url.port (url req))
                   (Url.path (url req)) (Url.query (url req))
                   (Url.fragment (url req))))
             301))
      cache [].
Proof.
  intros Hup Hwww Hhost Hh. unfold fetch, preprocess.
  rewrite (notUpgraded_test _ _ Hup), Hwww, Hhost. simpl Js.optIs.
  rewrite startsWith_www, substringFrom_www. simpl andb. cbv iota.
  unfold Url.setHostname. apply truthy_true_iff in Hh. rewrite Hh.
  reflexivity.
Qed.

Lemma www_remove_redirect_witness :
  let req :=
    getRequest
      (Url.mkURL "https" "" "" (Some "www.example.com") None "/test"
         (Some "a=1") None) in
  let env := mkEnv (Some "true") (Some "remove") None None in
  (notUpgraded (url req) env
   /\ WWW_REDIRECT env = Some "remove"
   /\ Url.hostname (url req) = "www." ++ "example.com"
   /\ "example.com" <> "")
  /\ fetch (rt := fragmentRuntime) req env
       (cacheOf [simpleRule "/test" "/elsewhere"] 0) 1000 offline
     = mkRun (Ok (Redirect "https://example.com/test?a=1" 301))
         (cacheOf [simpleRule "/test" "/elsewhere"] 0) [].
Proof.
  intros req env.
  assert (H1 : notUpgraded (url req) env) by (left; discriminate).
  assert (H2 : WWW_REDIRECT env = Some "remove") by reflexivity.
  assert (H3 : Url.hostname (url req) = "www." ++ "example.com")
    by reflexivity.
  assert (H4 : "example.com" <> "") by discriminate.
  split; [repeat split; assumption|].
  exact (www_remove_redirect fragmentRuntime req env
           (cacheOf [simpleRule "/test" "/elsewhere"] 0) 1000 offline
           "example.com" H1 H2 H3 H4).
Defined.

(** X2: with WWW_REDIRECT ["remove"], a request that is not upgraded and
    whose hostname is exactly [www.] is answered with a 301 to its own
    URL: nothing is left of the hostname, the empty hostname is refused
    by the URL, and the redirect leads back to the same request. *)
Theorem www_remove_bare_prefix_loops (rt : JsRuntime) (req : Request)
  (env : Env) (cache : Cache) (now : Z) (net : Network) :
  notUpgraded (url req) env ->
  WWW_REDIRECT env = Some "remove" ->
  Url.hostname (url req) = "www." ->
  fetch req env cache now net
  = mkRun (Ok (Redirect (Url.toString (url req)) 301)) cache [].
Proof.
  intros Hup Hwww Hhost. unfold fetch, preprocess.
  rewrite (notUpgraded_test _ _ Hup), Hwww, Hhost. reflexivity.
Qed.

Lemma www_remove_bare_prefix_loops_witness :
  let req :=
    getRequest (Url.mkURL "https" "" "" (Some "www.") None "/x" None None) in
  let env := mkEnv (Some "true") (Some "remove") None None in
  (notUpgraded (url req) env
   /\ WWW_REDIRECT env = Some "remove"
   /\ Url.hostname (url req) = "www.")
  /\ outcome (fetch (rt := fragmentRuntime) req env initialCache 1000 offline)
     = Ok (Redirect "https://www./x" 301).
Proof.
  intros req env.
  assert (H1 : notUpgraded (url req) env) by (left; discriminate).
  assert (H2 : WWW_REDIRECT env = Some "remove") by reflexivity.
  assert (H3 : Url.hostname (url req) = "www.") by reflexivity.
  split; [repeat split; assumption|].
  rewrite (www_remove_bare_prefix_loops fragmentRuntime req env initialCache
             1000 offline H1 H2 H3).
  reflexivity.
Defined.



(* ================================================================== *)
(** ** What the handler fetches and what it does to the cache *)

Lemma noSource_configuredSource (env : Env) :
  noSource env -> configuredSource env = None.
Proof.
  unfold configuredSource. intros [H|H]; rewrite H; reflexivity.
Qed.

Lemma configuredSource_inv (env : Env) (src : string) :
  configuredSource env = Some src ->
  GIST_CONFIG_URL env = Some src /\ src <> "".
Proof.
  unfold configuredSource. destruct (GIST_CONFIG_URL env) as [s|];
    [|discriminate].
  destruct (Js.truthy s) eqn:E; [|discriminate].
  intros [= <-]. split; [reflexivity | apply truthy_true_iff; exact E].
Qed.

Lemma fresh_or_stale (cache : Cache) (now : Z) :
  (exists rules, cachedRules cache = Some rules
                 /\ now - cacheTimestamp cache < CACHE_TTL)
  \/ absentOrStale cache now.
Proof.
  unfold absentOrStale. destruct (cachedRules cache) as [rules|]; [|auto].
  destruct (Z.lt_ge_cases (now - cacheTimestamp cache) CACHE_TTL); eauto.
Qed.

Lemma fetch_redirected (rt : JsRuntime) (req : Request) (env : Env)
  (cache : Cache) (now : Z) (net : Network) (r : Response) :
  preprocess (url req) env = Some r ->
  fetch req env cache now net = mkRun (Ok r) cache [].
Proof. intros H. unfold fetch. rewrite H. reflexivity. Qed.

(** X4: when no rule source is configured (GIST_CONFIG_URL missing or
    empty), no request ever fetches anything or changes the cache, and a
    request that passes preprocessing is resolved against the cached
    rules if there are any, however old, and the default rules
    otherwise. *)
Theorem no_source_never_fetches (rt : JsRuntime) (req : Request) (env : Env)
  (cache : Cache) (now : Z) (net : Network) :
  noSource env ->
  fetched (fetch req env cache now net) = []
  /\ cacheAfter (fetch req env cache now net) = cache
  /\ activeRules env cache now net = cachedOrDefault cache.
Proof.
  intros Hno. apply noSource_configuredSource in Hno.
  assert (Hload : loadRules env cache now net
                  = (cachedOrDefault cache, cache, [])).
  { unfold loadRules, refresh, cachedOrDefault. rewrite Hno.
    destruct (cachedRules cache) as [rules|]; [|reflexivity].
    destruct (now - cacheTimestamp cache <? CACHE_TTL); reflexivity. }
  unfold activeRules. rewrite Hload.
  destruct (preprocess (url req) env) as [r|] eqn:Hp.
  - rewrite (fetch_redirected rt req env cache now net r Hp). auto.
  - rewrite (fetch_passed rt req env cache now net Hp), Hload. auto.
Qed.

Lemma no_source_never_fetches_witness :
  let stale := cacheOf [simpleRule "/a" "/b"] 0 in
  let req := getRequest (exampleUrl "https" "/a" None) in
  noSource plainEnv
  /\ fetch (rt := fragmentRuntime) req plainEnv stale 999999999
       (serving [simpleRule "/a" "/c"])
     = mkRun (Ok (Redirect "https://example.com/b" 301)) stale [].
Proof.
  intros stale req.
  assert (H : noSource plainEnv) by (left; reflexivity).
  split; [exact H|].
  destruct (no_source_never_fetches fragmentRuntime req plainEnv stale
              999999999 (serving [simpleRule "/a" "/c"]) H) as (_ & _ & _).
  reflexivity.
Defined.

(** X5: a request makes at most one fetch, and only to the configured
    source: the handler fetches nothing, or it fetches GIST_CONFIG_URL
    once, and then the request passed preprocessing and the cache was
    absent or stale. *)
Theorem fetches_only_the_source (rt : JsRuntime) (req : Request) (env : Env)
  (cache : Cache) (now : Z) (net : Network) :
  fetched (fetch req env cache now net) = []
  \/ exists src : string,
       fetched (fetch req env cache now net) = [src]
       /\ GIST_CONFIG_URL env = Some src /\ src <> ""
       /\ preprocess (url req) env = None
       /\ absentOrStale cache now.
Proof.
  destruct (preprocess (url req) env) as [r|] eqn:Hp.
  - left. rewrite (fetch_redirected rt req env cache now net r Hp).
    reflexivity.
  - rewrite (fetch_passed rt req env cache now net Hp). simpl.
    assert (Hr : absentOrStale cache now ->
                 snd (refresh env cache now net) = []
                 \/ exists src,
                      snd (refresh env cache now net) = [src]
                      /\ GIST_CONFIG_URL env = Some src /\ src <> ""
                      /\ preprocess (url req) env = None
                      /\ absentOrStale cache now).
    { intros Hs. destruct (configuredSource env) as [src|] eqn:Hc.
      - right. exists src.
        destruct (configuredSource_inv env src Hc) as [H1 H2].
        repeat split; auto. apply refresh_fetches_once. exact Hc.
      - left. unfold refresh. rewrite Hc. reflexivity. }
    destruct (fresh_or_stale cache now) as [(rules & Hcr & Hfresh) | Hs].
    + left. unfold loadRules. rewrite Hcr.
      apply Z.ltb_lt in Hfresh. rewrite Hfresh. reflexivity.
    + rewrite (loadRules_stale env cache now net Hs). rewrite Hp in Hr.
      apply Hr. exact Hs.
Qed.

Lemma loadRules_cases (env : Env) (cache : Cache) (now : Z) (net : Network) :
  loadRules env cache now net
  = (cachedOrDefault cache, cache, snd (loadRules env cache now net))
  \/ exists ext : list RedirectRule,
       ext <> []
       /\ loadRules env cache now net
          = (ext, mkCache (Some ext) now, snd (loadRules env cache now net)).
Proof.
  assert (Hr : refresh env cache now net
               = (cachedOrDefault cache, cache,
                  snd (refresh env cache now net))
               \/ exists ext,
                    ext <> []
                    /\ refresh env cache now net
                       = (ext, mkCache (Some ext) now,
                          snd (refresh env cache now net))).
  { unfold refresh. destruct (configuredSource env) as [src|]; [|now left].
    destruct (net src) as [|[] [[ext|]|]]; try (now left).
    destruct ext as [|r ext]; [now left|].
    right. exists (r :: ext). split; [discriminate | reflexivity]. }
  unfold loadRules, cachedOrDefault in *.
  destruct (cachedRules cache) as [rules|]; [|exact Hr].
  destruct (now - cacheTimestamp cache <? CACHE_TTL); [now left | exact Hr].
Qed.

Lemma cacheAfter_cases (rt : JsRuntime) (req : Request) (env : Env)
  (cache : Cache) (now : Z) (net : Network) :
  cacheAfter (fetch req env cache now net) = cache
  \/ exists ext : list RedirectRule,
       ext <> []
       /\ cacheAfter (fetch req env cache now net) = mkCache (Some ext) now.
Proof.
  destruct (preprocess (url req) env) as [r|] eqn:Hp.
  - left. rewrite (fetch_redirected rt req env cache now net r Hp).
    reflexivity.
  - rewrite (fetch_passed rt req env cache now net Hp). simpl.
    destruct (loadRules_cases env cache now net) as [H | (ext & Hne & H)];
      rewrite H; simpl; eauto.
Qed.

Lemma default_rules_nonempty : DEFAULT_REDIRECTS <> [].
Proof. discriminate. Qed.

(** X6: in every state a worker can reach from its start, over any
    sequence of requests, environments, clock readings and answers of the
    rule source, the cache holds no rule set or a non-empty one, and the
    rules a request is resolved against are never the empty list. *)
Theorem reachable_rules_never_empty (rt : JsRuntime) (cache : Cache) :
  reachable cache ->
  (forall rules, cachedRules cache = Some rules -> rules <> [])
  /\ (forall (env : Env) (now : Z) (net : Network),
         activeRules env cache now net <> []).
Proof.
  intros Hreach.
  assert (Hcache : forall rules, cachedRules cache = Some rules ->
                                 rules <> []).
  { induction Hreach as [|cache req env now net _ IH].
    - discriminate.
    - destruct (cacheAfter_cases rt req env cache now net)
        as [-> | (ext & Hne & ->)]; [exact IH|].
      intros rules [= <-]. exact Hne. }
  split; [exact Hcache|].
  intros env now net. unfold activeRules.
  destruct (loadRules_cases env cache now net) as [H | (ext & Hne & H)];
    rewrite H; simpl; [|exact Hne].
  unfold cachedOrDefault. destruct (cachedRules cache) as [rules|] eqn:E.
  - apply Hcache. reflexivity.
  - apply default_rules_nonempty.
Qed.

Lemma reachable_rules_never_empty_witness :
  let first :=
    fetch (rt := fragmentRuntime)
      (getRequest (exampleUrl "https" "/x" None)) gistEnv initialCache 1000
      (serving [simpleRule "/a" "/b"]) in
  let second :=
    fetch (rt := fragmentRuntime)
      (getRequest (exampleUrl "https" "/y" None)) gistEnv (cacheAfter first)
      400000 (serving []) in
  reachable (rt := fragmentRuntime) (cacheAfter second)
  /\ cachedRules (cacheAfter second) = Some [simpleRule "/a" "/b"]
  /\ activeRules gistEnv (cacheAfter second) 800000 (serving []) <> [].
Proof.
  intros first second.
  assert (H : reachable (rt := fragmentRuntime) (cacheAfter second)).
  { apply reachable_request. apply reachable_request. apply reachable_start. }
  split; [exact H|]. split; [reflexivity|].
  apply (proj2 (reachable_rules_never_empty fragmentRuntime _ H)).
Defined.

(** X7: the cache is never emptied: a request leaves a rule set in the
    cache whenever it found one; and a request that passes preprocessing
    is resolved against exactly what the cache holds when it is done, or
    against the default rules when the cache holds nothing then. *)
Theorem cache_is_never_evicted (rt : JsRuntime) (req : Request) (env : Env)
  (cache : Cache) (now : Z) (net : Network) :
  (cachedRules cache <> None ->
   cachedRules (cacheAfter (fetch req env cache now net)) <> None)
  /\ (preprocess (url req) env = None ->
      activeRules env cache now net
      = cachedOrDefault (cacheAfter (fetch req env cache now net))).
Proof.
  split.
  - intros Hsome.
    destruct (cacheAfter_cases rt req env cache now net)
      as [-> | (ext & _ & ->)]; [exact Hsome | discriminate].
  - intros Hp. rewrite (fetch_passed rt req env cache now net Hp). simpl.
    unfold activeRules.
    destruct (loadRules_cases env cache now net) as [H | (ext & _ & H)];
      rewrite H; reflexivity.
Qed.

Lemma cache_is_never_evicted_witness :
  let cache := cacheOf [simpleRule "/a" "/b"] 0 in
  let req := getRequest (exampleUrl "https" "/admin/rules" None) in
  (cachedRules cache <> None /\ preprocess (url req) gistEnv = None)
  /\ cachedRules
       (cacheAfter (fetch (rt := fragmentRuntime) req gistEnv cache 999999
                      offline))
     <> None
  /\ activeRules gistEnv cache 999999 (serving [simpleRule "/c" "/d"])
     = [simpleRule "/c" "/d"].
Proof.
  intros cache req.
  assert (H1 : cachedRules cache <> None) by discriminate.
  assert (H2 : preprocess (url req) gistEnv = None) by reflexivity.
  split; [split; assumption|]. split.
  - exact (proj1 (cache_is_never_evicted fragmentRuntime req gistEnv cache
                    999999 offline) H1).
  - rewrite (proj2 (cache_is_never_evicted fragmentRuntime req gistEnv cache
                      999999 (serving [simpleRule "/c" "/d"])) H2).
    reflexivity.
Defined.

(* ================================================================== *)
(** ** The endpoints after the rule loop (index.ts 208-254) *)

Lemma resolve_all_miss (rt : JsRuntime) (u : URL)
  (rules : list RedirectRule) :
  Forall (fun r => misses r u) rules -> resolve u rules = Ok None.
Proof.
  intros H. rewrite <- (app_nil_r rules).
  rewrite (resolve_skip_prefix u rules [] H). reflexivity.
Qed.

Lemma fetch_falls_through (rt : JsRuntime) (req : Request) (env : Env)
  (cache : Cache) (now : Z) (net : Network) :
  preprocess (url req) env = None ->
  Forall (fun r => misses r (url req)) (activeRules env cache now net) ->
  outcome (fetch req env cache now net)
  = Ok (fallback req env (activeRules env cache now net)).
Proof.
  intros Hp Hm. rewrite (fetch_passed rt req env cache now net Hp). simpl.
  rewrite (resolve_all_miss rt _ _ Hm). reflexivity.
Qed.

Lemma noAdminKey_fallback (req : Request) (env : Env)
  (rules : list RedirectRule) :
  noAdminKey env ->
  Url.pathname (url req) = "/admin/rules" -> method req = "GET" ->
  fallback req env rules = AdminRules rules.
Proof.
  intros Hk Hpath Hget. unfold fallback. rewrite Hpath, Hget. simpl.
  destruct Hk as [-> | ->]; reflexivity.
Qed.

(** X8: on [/admin/rules], for a GET request that passes preprocessing
    and that no rule matches: without an admin key (missing or empty)
    the rules of the request are handed out whatever the Authorization
    header is; with an admin key they are handed out when the header is
    exactly [Bearer] followed by the key, and the answer is 401
    otherwise; and a request with another method gets the 404 page,
    with or without the key. *)
Theorem admin_rules_access (rt : JsRuntime) (req : Request) (env : Env)
  (cache : Cache) (now : Z) (net : Network) :
  preprocess (url req) env = None ->
  Forall (fun r => misses r (url req)) (activeRules env cache now net) ->
  Url.pathname (url req) = "/admin/rules" ->
  (method req = "GET" -> noAdminKey env ->
   outcome (fetch req env cache now net)
   = Ok (AdminRules (activeRules env cache now net)))
  /\ (forall key : string,
         method req = "GET" -> ADMIN_KEY env = Some key -> key <> "" ->
         (authorization req = Some ("Bearer " ++ key) ->
          outcome (fetch req env cache now net)
          = Ok (AdminRules (activeRules env cache now net)))
         /\ (authorization req <> Some ("Bearer " ++ key) ->
             outcome (fetch req env cache now net) = Ok Unauthorized))
  /\ (method req <> "GET" ->
      outcome (fetch req env cache now net) = Ok (NotFound "/admin/rules")).
Proof.
  intros Hp Hm Hpath.
  rewrite (fetch_falls_through rt req env cache now net Hp Hm).
  split; [|split].
  - intros Hget Hk. rewrite noAdminKey_fallback by assumption. reflexivity.
  - intros key Hget Hkey Hne. unfold fallback. rewrite Hpath, Hget, Hkey.
    apply truthy_true_iff in Hne. rewrite Hne. simpl. split.
    + intros ->. simpl. rewrite String.eqb_refl. reflexivity.
    + intros Hauth. apply optIs_false_iff in Hauth. rewrite Hauth.
      reflexivity.
  - intros Hmeth. unfold fallback. rewrite Hpath. simpl.
    unfold Js.strictEq. apply String.eqb_neq in Hmeth. rewrite Hmeth.
    reflexivity.
Qed.

Lemma admin_rules_access_witness :
  let req (auth : option string) :=
    mkRequest (exampleUrl "https" "/admin/rules" None) "GET" auth in
  let env := mkEnv (Some "true") (Some "none") None (Some "test-admin-key") in
  (preprocess (url (req None)) env = None
   /\ Forall (fun r => misses (rt := fragmentRuntime) r (url (req None)))
        (activeRules env initialCache 1000 offline))
  /\ outcome (fetch (rt := fragmentRuntime)
                (req (Some "Bearer test-admin-key")) env initialCache 1000
                offline)
     = Ok (AdminRules DEFAULT_REDIRECTS)
  /\ outcome (fetch (rt := fragmentRuntime) (req (Some "test-admin-key")) env
                initialCache 1000 offline)
     = Ok Unauthorized
  /\ outcome (fetch (rt := fragmentRuntime) (req None)
                (mkEnv (Some "true") (Some "none") None (Some ""))
                initialCache 1000 offline)
     = Ok (AdminRules DEFAULT_REDIRECTS).
Proof.
  intros req env.
  assert (Hp : forall auth e,
             preprocess (url (req auth)) e = preprocess (url (req None)) e)
    by reflexivity.
  assert (H1 : preprocess (url (req None)) env = None) by reflexivity.
  assert (H2 : Forall (fun r => misses (rt := fragmentRuntime) r
                                  (url (req None)))
                 (activeRules env initialCache 1000 offline)).
  { apply resolve_none_inv. reflexivity. }
  split; [split; assumption|].
  split; [|split].
  - refine (proj1 (proj1 (proj2 (admin_rules_access fragmentRuntime
                                   (req (Some "Bearer test-admin-key")) env
                                   initialCache 1000 offline H1 H2 eq_refl))
                     "test-admin-key" eq_refl eq_refl _) eq_refl).
    discriminate.
  - refine (proj2 (proj1 (proj2 (admin_rules_access fragmentRuntime
                                   (req (Some "test-admin-key")) env
                                   initialCache 1000 offline H1 H2 eq_refl))
                     "test-admin-key" eq_refl eq_refl _) _); discriminate.
  - refine (proj1 (admin_rules_access fragmentRuntime (req None)
                     (mkEnv (Some "true") (Some "none") None (Some ""))
                     initialCache 1000 offline eq_refl H2 eq_refl)
              eq_refl _).
    right. reflexivity.
Defined.

Lemma redirectFor_status (rt : JsRuntime) (rule : RedirectRule)
  (m : MatchResult) (u : URL) (r : Response) :
  redirectFor rule m u = Ok r ->
  exists loc c, r = Redirect loc c /\ isRedirectStatus c = true.
Proof.
  unfold redirectFor, bindE, Response_redirect.
  destruct (destination rule m u); [|discriminate].
  destruct (isRedirectStatus _) eqn:E; [|discriminate].
  intros [= <-]. eauto.
Qed.

Lemma preprocess_redirects_301 (u : URL) (env : Env) (r : Response) :
  preprocess u env = Some r -> exists loc, r = Redirect loc 301.
Proof.
  unfold preprocess. intros H.
  repeat match type of H with
         | (if ?b then _ else _) = _ => destruct b
         end; try discriminate; injection H as <-; eauto.
Qed.

Lemma fetch_answer_cases (rt : JsRuntime) (req : Request) (env : Env)
  (cache : Cache) (now : Z) (net : Network) (r : Response) :
  outcome (fetch req env cache now net) = Ok r ->
  (exists loc c, r = Redirect loc c /\ isRedirectStatus c = true)
  \/ (preprocess (url req) env = None
      /\ Forall (fun r' => misses r' (url req))
           (activeRules env cache now net)
      /\ r = fallback req env (activeRules env cache now net)).
Proof.
  destruct (preprocess (url req) env) as [r0|] eqn:Hp.
  - rewrite (fetch_redirected rt req env cache now net r0 Hp). simpl.
    intros [= <-]. left.
    destruct (preprocess_redirects_301 _ _ _ Hp) as (loc & ->).
    exists loc, 301. split; reflexivity.
  - rewrite (fetch_passed rt req env cache now net Hp). simpl.
    destruct (resolve (url req) (activeRules env cache now net))
      as [[r'|]|e] eqn:Hres; simpl; try discriminate; intros [= <-].
    + left.
      destruct (resolve_some_inv _ _ _ Hres)
        as (_ & rule & _ & m & _ & _ & _ & Hr).
      exact (redirectFor_status rt _ _ _ _ Hr).
    + right. repeat split. apply resolve_none_inv. exact Hres.
Qed.



(** X10: whatever the request, the rules and the environment, an answer
    of the handler has one of the statuses 200, 301, 302, 303, 307, 308,
    401 and 404, and a redirect of preprocessing has status 301. *)
Theorem answers_have_known_statuses (rt : JsRuntime) (req : Request)
  (env : Env) (cache : Cache) (now : Z) (net : Network) (r : Response) :
  outcome (fetch req env cache now net) = Ok r ->
  In (statusOf r) handlerStatuses
  /\ (preprocess (url req) env <> None -> statusOf r = 301).
Proof.
  intros H. split.
  - destruct (fetch_answer_cases rt req env cache now net _ H)
      as [(loc & c & -> & Hc) | (_ & _ & ->)].
    + simpl. unfold isRedirectStatus in Hc.
      rewrite !orb_true_iff, !Z.eqb_eq in Hc. unfold handlerStatuses.
      simpl. lia.
    + unfold handlerStatuses, fallback.
      destruct (Js.strictEq _ "/health"); [simpl; lia|].
      destruct (_ && _)%bool; [|simpl; lia].
      destruct (ADMIN_KEY env) as [key|]; [|simpl; lia].
      destruct (_ && _)%bool; simpl; lia.
  - intros Hp. destruct (preprocess (url req) env) as [r0|] eqn:E;
      [|congruence].
    rewrite (fetch_redirected rt req env cache now net r0 E) in H.
    injection H as <-.
    destruct (preprocess_redirects_301 _ _ _ E) as (loc & ->). reflexivity.
Qed.

Lemma answers_have_known_statuses_witness :
  let req := getRequest (exampleUrl "https" "/moved" None) in
  let cache := cacheOf [mkRule "/moved" "/here" (Some 307) None None None] 0 in
  outcome (fetch (rt := fragmentRuntime) req plainEnv cache 1000 offline)
  = Ok (Redirect "https://example.com/here" 307)
  /\ In 307 handlerStatuses.
Proof.
  intros req cache.
  assert (H : outcome (fetch (rt := fragmentRuntime) req plainEnv cache 1000
                         offline)
              = Ok (Redirect "https://example.com/here" 307)) by reflexivity.
  split; [exact H|].
  exact (proj1 (answers_have_known_statuses fragmentRuntime req plainEnv
                  cache 1000 offline _ H)).
Defined.

(* ================================================================== *)
(** ** Where an exception comes from *)

Lemma resolveUrl_raises_TypeError (rt : JsRuntime) (redirectTo : string)
  (u : URL) (e : Exn) :
  resolveUrl redirectTo u = Raise e -> e = TypeError.
Proof.
  unfold resolveUrl. destruct (URL_new redirectTo None); [discriminate|].
  destruct (URL_new redirectTo (Some (Url.origin u))); [discriminate|].
  intros [= <-]. reflexivity.
Qed.

Lemma matchPath_raise (rt : JsRuntime) (path pattern : string) (cs : bool)
  (e : Exn) :
  matchPath path pattern cs = Raise e ->
  e = SyntaxError
  /\ RegExp_new ("^" ++ regexSource pattern ++ "$") (if cs then "" else "i")
     = None.
Proof.
  unfold matchPath. destruct (RegExp_new _ _) as [re|].
  - destruct (String_match path re); discriminate.
  - intros [= <-]. split; reflexivity.
Qed.

Lemma redirectFor_raise (rt : JsRuntime) (rule : RedirectRule)
  (m : MatchResult) (u : URL) (e : Exn) :
  redirectFor rule m u = Raise e ->
  (e = TypeError
   /\ resolveUrl (substitute (captures m) (to rule)) u = Raise TypeError)
  \/ (e = RangeError
      /\ isRedirectStatus (statusOrDefault rule) = false
      /\ exists d, destination rule m u = Ok d).
Proof.
  unfold redirectFor, destination, bindE.
  destruct (resolveUrl (substitute (captures m) (to rule)) u) as [d|e']
    eqn:Hr.
  - unfold Response_redirect.
    destruct (isRedirectStatus (statusOrDefault rule)); [discriminate|].
    intros [= <-]. right. eauto.
  - intros [= <-]. left.
    pose proof (resolveUrl_raises_TypeError rt _ _ _ Hr) as ->. auto.
Qed.



(** X12: rules scoped to other hosts are not evaluated at all: when
    every rule of the active set has a non-empty domain that differs
    from the request's hostname, a request that passes preprocessing is
    answered by the endpoints after the loop, also when patterns of
    those rules do not compile. *)
Theorem foreign_rules_are_inert (rt : JsRuntime) (req : Request) (env : Env)
  (cache : Cache) (now : Z) (net : Network) :
  preprocess (url req) env = None ->
  Forall (fun rule => foreignRule rule (url req))
    (activeRules env cache now net) ->
  outcome (fetch req env cache now net)
  = Ok (fallback req env (activeRules env cache now net)).
Proof.
  intros Hp Hforeign. apply fetch_falls_through; [exact Hp|].
  apply Forall_impl with (2 := Hforeign).
  intros rule (d & Hd & Hne & Hhost). left.
  unfold domainApplies. rewrite Hd. tauto.
Qed.

Lemma foreign_rules_are_inert_witness :
  let req := getRequest (exampleUrl "https" "/user/7" None) in
  let rules :=
    [bookRule;
     mkRule "/user/([0-9]+" "/profile/$1" None None None
       (Some "other.example.com")] in
  (preprocess (url req) plainEnv = None
   /\ Forall (fun rule => foreignRule rule (url req))
        (activeRules plainEnv (cacheOf rules 0) 1000 offline))
  /\ outcome (fetch (rt := fragmentRuntime) req plainEnv (cacheOf rules 0)
                1000 offline)
     = Ok (NotFound "/user/7").
Proof.
  intros req rules.
  assert (H1 : preprocess (url req) plainEnv = None) by reflexivity.
  assert (H2 : Forall (fun rule => foreignRule rule (url req))
                 (activeRules plainEnv (cacheOf rules 0) 1000 offline)).
  { apply Forall_cons; [|apply Forall_cons; [|apply Forall_nil]].
    - exists "book.carlosguerrero.com". repeat split; discriminate.
    - exists "other.example.com". repeat split; discriminate. }
  split; [split; assumption|].
  exact (foreign_rules_are_inert fragmentRuntime req plainEnv
           (cacheOf rules 0) 1000 offline H1 H2).
Defined.

(* ================================================================== *)
(** ** Placeholders that name no capture *)

Lemma parseInt_leading_zero (ds : list ascii) :
  Js.parseInt ("0"%char :: ds) = Js.parseInt ds.
Proof. reflexivity. Qed.

(** X13: in the destination template, a placeholder whose number is 0
    (a dollar sign followed by zeros only) is deleted, since it names the
    capture before the first; a dollar sign that no digit follows stays
    as it is, also before another dollar sign or at the end; and zeros
    between the dollar sign and the number do not change which capture
    is meant. *)
Theorem placeholder_edge_cases (caps : list (option string)) :
  (forall (pre rest : string) (ds : list ascii),
      noDollar pre -> allDigits ds -> ds <> [] -> notDigitHead rest ->
      Js.parseInt ds = 0%N ->
      substitute caps (pre ++ "$" ++ string_of_list_ascii ds ++ rest)
      = pre ++ substitute caps rest)
  /\ (forall pre rest : string,
         noDollar pre -> notDigitHead rest ->
         substitute caps (pre ++ "$" ++ rest)
         = pre ++ "$" ++ substitute caps rest)
  /\ (forall (pre rest : string) (ds : list ascii),
         noDollar pre -> allDigits ds -> ds <> [] -> notDigitHead rest ->
         substitute caps
           (pre ++ "$" ++ string_of_list_ascii ("0"%char :: ds) ++ rest)
         = substitute caps (pre ++ "$" ++ string_of_list_ascii ds ++ rest)).
Proof.
  assert (Hgen : forall (pre rest : string) (ds : list ascii),
             noDollar pre -> allDigits ds -> notDigitHead rest ->
             substitute caps (pre ++ "$" ++ string_of_list_ascii ds ++ rest)
             = pre ++ flushPending caps (Some ds) ++ substitute caps rest).
  { intros pre rest ds Hpre Hds Hrest. unfold substitute.
    rewrite substitute_plain_prefix by assumption. f_equal.
    change (substituteFrom caps None
              ("$" ++ string_of_list_ascii ds ++ rest))
      with (substituteFrom caps (Some [])
              (string_of_list_ascii ds ++ rest)).
    rewrite substitute_digits by assumption.
    rewrite substitute_flush by assumption. reflexivity. }
  split; [|split].
  - intros pre rest ds Hpre Hds Hne Hrest Hzero.
    rewrite Hgen by assumption. f_equal.
    destruct ds as [|d ds]; [congruence|].
    simpl flushPending. unfold captureOrEmpty. rewrite Hzero. reflexivity.
  - intros pre rest Hpre Hrest.
    exact (Hgen pre rest [] Hpre eq_refl Hrest).
  - intros pre rest ds Hpre Hds Hne Hrest.
    assert (Hds0 : allDigits ("0"%char :: ds)).
    { unfold allDigits in *. simpl. exact Hds. }
    rewrite (Hgen pre rest ("0"%char :: ds) Hpre Hds0 Hrest).
    simpl flushPending. unfold captureOrEmpty.
    rewrite parseInt_leading_zero.
    destruct ds as [|d ds]; [congruence|].
    rewrite (Hgen pre rest (d :: ds) Hpre Hds Hrest). reflexivity.
Qed.

Lemma placeholder_edge_cases_witness :
  (noDollar "/p/" /\ allDigits ["0"%char; "0"%char] /\ notDigitHead "/$/$"
   /\ Js.parseInt ["0"%char; "0"%char] = 0%N)
  /\ substitute [Some "a"; Some "b"] "/p/$00/$/$" = "/p/" ++ "/$/$"
  /\ substitute [Some "a"; Some "b"] "$002!" = substitute [Some "a"; Some "b"] "$02!".
Proof.
  assert (H1 : noDollar "/p/") by reflexivity.
  assert (H2 : allDigits ["0"%char; "0"%char]) by reflexivity.
  assert (H3 : notDigitHead "/$/$") by reflexivity.
  assert (H4 : Js.parseInt ["0"%char; "0"%char] = 0%N) by reflexivity.
  split; [repeat split; assumption|]. split.
  - refine (proj1 (placeholder_edge_cases [Some "a"; Some "b"])
              "/p/" "/$/$" ["0"%char; "0"%char] H1 H2 _ H3 H4).
    discriminate.
  - refine (proj2 (proj2 (placeholder_edge_cases [Some "a"; Some "b"]))
              "" "!" ["0"%char; "2"%char] eq_refl eq_refl _ eq_refl).
    discriminate.
Defined.

(* ================================================================== *)
(** ** Patterns without operators, on the engine *)

Module PlainPatterns.

Import Regex.

Local Open Scope nat_scope.
Local Open Scope list_scope.

Ltac bits c :=
  destruct c as [[|] [|] [|] [|] [|] [|] [|] [|]].

Lemma quantified_id (a : Re) (s : list ascii) :
  noQuantifierHead s -> quantified a s = (a, s).
Proof.
  destruct s as [|c s]; [reflexivity|]. intros (H1 & H2 & H3).
  bits c; first [reflexivity | congruence].
Qed.

Lemma plainChar_not_quantifier (c : ascii) (s : list ascii) :
  plainChar c = true -> noQuantifierHead (c :: s).
Proof.
  intros H. simpl. repeat split; intros ->; discriminate H.
Qed.

Lemma escaped_head (p tail : list ascii) :
  forallb plainChar p = true -> noQuantifierHead tail ->
  noQuantifierHead (escaped p ++ tail).
Proof.
  destruct p as [|c p]; [auto|]. simpl. intros H _.
  apply andb_true_iff in H. destruct H as [Hc _].
  destruct (Ascii.eqb_spec c "/").
  - simpl. repeat split; discriminate.
  - exact (plainChar_not_quantifier c _ Hc).
Qed.

Lemma atom_plain (f : nat) (c : ascii) (s : list ascii) (n : nat) :
  plainChar c = true -> atom (S f) (c :: s) n = Some (Char c, s, n).
Proof. intros Hc. bits c; try discriminate Hc; reflexivity. Qed.

Lemma term_plain (f : nat) (c : ascii) (s : list ascii) (n : nat) :
  plainChar c = true ->
  term (S f) (c :: s) n
  = match atom f (c :: s) n with
    | Some (a, s', n') => let '(q, r) := quantified a s' in Some (q, r, n')
    | None => None
    end.
Proof. intros Hc. bits c; try discriminate Hc; reflexivity. Qed.

Lemma alternative_plain (f : nat) (c : ascii) (s : list ascii) (n : nat) :
  plainChar c = true ->
  alternative (S f) (c :: s) n
  = match term f (c :: s) n with
    | Some (t, s', n') =>
        match alternative f s' n' with
        | Some (a, s'', n'') => Some (Seq t a, s'', n'')
        | None => None
        end
    | None => None
    end.
Proof. intros Hc. bits c; try discriminate Hc; reflexivity. Qed.

Lemma alternative_char_unfold (f : nat) (c : ascii) (s : list ascii)
  (n : nat) :
  plainChar c = true ->
  alternative (S (S (S f))) (c :: s) n
  = match (let '(q, r) := quantified (Char c) s in Some (q, r, n)) with
    | Some (t, s', n') =>
        match alternative (S (S f)) s' n' with
        | Some (a, s'', n'') => Some (Seq t a, s'', n'')
        | None => None
        end
    | None => None
    end.
Proof.
  intros Hc.
  rewrite alternative_plain, term_plain, atom_plain by exact Hc.
  reflexivity.
Qed.

Lemma alternative_slash_unfold (f : nat) (s : list ascii) (n : nat) :
  alternative (S (S (S f))) ("\"%char :: "/"%char :: s) n
  = match (let '(q, r) := quantified (Char "/") s in Some (q, r, n)) with
    | Some (t, s', n') =>
        match alternative (S (S f)) s' n' with
        | Some (a, s'', n'') => Some (Seq t a, s'', n'')
        | None => None
        end
    | None => None
    end.
Proof. reflexivity. Qed.

(** One plain character in front of an alternative. *)
Lemma alternative_plain_char (f : nat) (c : ascii) (s : list ascii)
  (n : nat) :
  plainChar c = true -> noQuantifierHead s ->
  alternative (S (S (S f))) (escaped [c] ++ s) n
  = match alternative (S (S f)) s n with
    | Some (a, s', n') => Some (Seq (Char c) a, s', n')
    | None => None
    end.
Proof.
  intros Hc Hs. simpl escaped. destruct (Ascii.eqb_spec c "/") as [->|Hne].
  - simpl app. rewrite alternative_slash_unfold, quantified_id by exact Hs.
    reflexivity.
  - simpl app. rewrite alternative_char_unfold, quantified_id by assumption.
    reflexivity.
Qed.

Lemma escaped_cons (c : ascii) (p tail : list ascii) :
  escaped (c :: p) ++ tail = escaped [c] ++ (escaped p ++ tail).
Proof. simpl. destruct (Ascii.eqb c "/"); reflexivity. Qed.

Lemma escaped_length (p : list ascii) :
  List.length p <= List.length (escaped p).
Proof.
  induction p as [|c p IH]; simpl; [lia|].
  destruct (Ascii.eqb c "/"); simpl; lia.
Qed.

(** The characters of a plain pattern in front of an alternative. *)
Lemma alternative_plain_chars (p tail : list ascii) :
  forallb plainChar p = true -> noQuantifierHead tail ->
  forall (fuel n : nat),
    List.length p + 2 <= fuel ->
    alternative fuel (escaped p ++ tail) n
    = match alternative (fuel - List.length p) tail n with
      | Some (a, s', n') => Some (charsThen p a, s', n')
      | None => None
      end.
Proof.
  intros Hp Htail. induction p as [|c p IH]; intros fuel n Hfuel.
  - simpl. rewrite Nat.sub_0_r.
    destruct (alternative fuel tail n) as [[[a s'] n']|]; reflexivity.
  - simpl in Hp. apply andb_true_iff in Hp. destruct Hp as [Hc Hp].
    destruct fuel as [|[|[|f]]]; simpl in Hfuel; try lia.
    rewrite escaped_cons.
    rewrite alternative_plain_char
      by (try assumption; apply escaped_head; assumption).
    rewrite (IH Hp) by lia.
    change (S (S (S f)) - List.length (c :: p))
      with (S (S f) - List.length p).
    destruct (alternative (S (S f) - List.length p) tail n)
      as [[[a s'] n']|]; reflexivity.
Qed.

Lemma alternative_end (fuel n : nat) :
  2 <= fuel ->
  alternative fuel ["$"%char] n = Some (Seq Eol Empty, [], n).
Proof. intros H. destruct fuel as [|[|f]]; try lia. reflexivity. Qed.

Lemma alternative_wildcard_end (fuel n : nat) :
  8 <= fuel ->
  alternative fuel (list_ascii_of_string "(.*)$") n
  = Some (Seq (Group n (Seq (Quant 0 None true Dot) Empty)) (Seq Eol Empty),
          [], S n).
Proof.
  intros H. do 8 (destruct fuel as [|fuel]; [lia|]). reflexivity.
Qed.

Lemma alternative_bol (f n : nat) (s : list ascii) :
  alternative (S (S f)) ("^"%char :: s) n
  = match alternative (S f) s n with
    | Some (a, s'', n'') => Some (Seq Bol a, s'', n'')
    | None => None
    end.
Proof. reflexivity. Qed.

Lemma disjunction_unfold (f n : nat) (s : list ascii) :
  disjunction (S f) s n
  = match alternative f s n with
    | Some (a, "|"%char :: s', n') =>
        match disjunction f s' n' with
        | Some (b, s'', n'') => Some (Alt a b, s'', n'')
        | None => None
        end
    | r => r
    end.
Proof. reflexivity. Qed.

Lemma disjunction_anchored (f n : nat) (s : list ascii) (r : Re)
  (n' : nat) :
  alternative (S f) s n = Some (r, [], n') ->
  disjunction (S (S (S f))) ("^"%char :: s) n = Some (Seq Bol r, [], n').
Proof.
  intros H. rewrite disjunction_unfold, alternative_bol, H. reflexivity.
Qed.

Lemma list_of_append (a b : string) :
  list_ascii_of_string (a ++ b)
  = list_ascii_of_string a ++ list_ascii_of_string b.
Proof. induction a as [|c a IH]; simpl; [reflexivity | rewrite IH; reflexivity]. Qed.

Lemma plainChar_literal (c : ascii) :
  plainChar c = true ->
  literalChar c
  = if Ascii.eqb c "/" then "\/"%string else String c EmptyString.
Proof.
  intros H. unfold literalChar.
  destruct (Ascii.eqb_spec c "*") as [->|]; [discriminate H | reflexivity].
Qed.

Lemma translate_plain (pattern : string) :
  plainPattern pattern ->
  list_ascii_of_string (translate pattern)
  = escaped (list_ascii_of_string pattern).
Proof.
  unfold plainPattern. induction pattern as [|c s IH]; intros H;
    [reflexivity|].
  simpl in H. apply andb_true_iff in H. destruct H as [Hc Hs].
  simpl. rewrite list_of_append, (plainChar_literal c Hc), (IH Hs).
  destruct (Ascii.eqb c "/"); reflexivity.
Qed.

Lemma plain_has_no (c : ascii) (pattern : string) :
  plainChar c = false -> plainPattern pattern ->
  Js.includes c pattern = false.
Proof.
  unfold plainPattern. intros Hc.
  induction pattern as [|a s IH]; intros H; [reflexivity|].
  simpl in H. apply andb_true_iff in H. destruct H as [Ha Hs].
  simpl. rewrite (IH Hs), orb_false_r.
  destruct (Ascii.eqb_spec a c) as [->|]; [congruence | reflexivity].
Qed.

(** Running the characters of [p] reads the prefix [p] off the input. *)
Lemma run_charsThen (ic : bool) (p : list ascii) (tail : Re) (k : Cont) :
  forall (s : list ascii) (i : nat) (cs : list (option (list ascii))),
    run ic (charsThen p tail) (mkState s i cs) k
    = match stripPrefix ic p s with
      | Some s' => run ic tail (mkState s' (i + List.length p) cs) k
      | None => None
      end.
Proof.
  induction p as [|c p IH]; intros s i cs.
  - simpl. rewrite Nat.add_0_r. reflexivity.
  - destruct s as [|a s]; [reflexivity|].
    cbn [charsThen run step rest pos caps stripPrefix].
    destruct (Ascii.eqb (canon ic a) (canon ic c)); [|reflexivity].
    rewrite IH. simpl List.length. rewrite Nat.add_succ_r. reflexivity.
Qed.

Lemma endsEol_charsThen (p : list ascii) (tail : Re) :
  endsEol (charsThen p tail) = endsEol tail.
Proof. induction p as [|c p IH]; [reflexivity | exact IH]. Qed.

(** With an expression that starts with [^], only the start of the input
    is tried with success. *)
Lemma searchFrom_first (re : Compiled) (s : list ascii) :
  anchored (body re) = true ->
  searchFrom re s 0
  = match
      run (ignoreCase re) (body re)
        (mkState s 0 (repeat None (groupCount re))) Some
    with
    | Some z => Some (firstn (pos z - 0) s, caps z)
    | None => None
    end.
Proof.
  intros Ha. destruct s as [|a s]; simpl.
  - destruct (run _ _ _ _); reflexivity.
  - destruct (run _ _ _ _); [reflexivity|].
    destruct (searchFrom re s 1) as [[whole cs]|] eqn:E; [|reflexivity].
    destruct (RegexFacts.searchFrom_anchored re s 1 whole cs Ha E)
      as [H _]. discriminate H.
Qed.

(** The expression [matchPath] compiles for a plain pattern. *)
Lemma compile_plain (pattern : string) (cs : bool) :
  plainPattern pattern ->
  compile ("^" ++ regexSource pattern ++ "$") (if cs then "" else "i")
  = Some (mkCompiled
            (Seq Bol (charsThen (list_ascii_of_string pattern)
                        (Seq Eol Empty)))
            0 (negb cs)).
Proof.
  intros Hp.
  assert (Hsrc : regexSource pattern = translate pattern).
  { unfold regexSource. rewrite replaceAll_translate.
    rewrite (plain_has_no "("%char pattern eq_refl Hp). reflexivity. }
  unfold compile, parse. rewrite Hsrc.
  change ("^" ++ translate pattern ++ "$")%string
    with (String "^" (translate pattern ++ "$")).
  cbn [list_ascii_of_string]. rewrite list_of_append, (translate_plain _ Hp).
  cbn [list_ascii_of_string].
  set (p := list_ascii_of_string pattern) in *.
  set (src := (escaped p ++ ["$"%char])).
  assert (Hlen : List.length p + 1 <= List.length src).
  { unfold src. rewrite length_app. pose proof (escaped_length p).
    simpl. lia. }
  set (F := 4 * List.length ("^"%char :: src) + 5).
  assert (HF : List.length p + 4 <= F).
  { unfold F. cbn [List.length]. lia. }
  assert (Hq : noQuantifierHead ["$"%char]).
  { simpl. repeat split; discriminate. }
  assert (Halt : alternative (S F) src 1
                 = Some (charsThen p (Seq Eol Empty), [], 1)).
  { unfold src.
    rewrite (alternative_plain_chars p ["$"%char] Hp Hq (S F) 1) by lia.
    rewrite alternative_end by lia. reflexivity. }
  replace (4 * List.length ("^"%char :: src) + 8) with (S (S (S F)))
    by (unfold F; lia).
  rewrite (disjunction_anchored _ _ _ _ _ Halt).
  destruct cs; reflexivity.
Qed.

Lemma includes_app (c : ascii) (a b : string) :
  Js.includes c (a ++ b)%string = (Js.includes c a || Js.includes c b)%bool.
Proof.
  induction a as [|x a IH]; simpl; [reflexivity|].
  rewrite IH, orb_assoc. reflexivity.
Qed.

(** The expression [matchPath] compiles for a plain prefix followed by
    a star. *)
Lemma compile_plain_star (prefix : string) (cs : bool) :
  plainPattern prefix ->
  compile ("^" ++ regexSource (prefix ++ "*") ++ "$")
    (if cs then "" else "i")
  = Some (mkCompiled
            (Seq Bol
               (charsThen (list_ascii_of_string prefix)
                  (Seq (Group 1 (Seq (Quant 0 None true Dot) Empty))
                     (Seq Eol Empty))))
            1 (negb cs)).
Proof.
  intros Hp.
  assert (Hsrc : regexSource (prefix ++ "*")
                 = (translate prefix ++ "(.*)")%string).
  { unfold regexSource. rewrite replaceAll_translate, translate_app.
    rewrite includes_app, (plain_has_no "("%char prefix eq_refl Hp).
    reflexivity. }
  unfold compile, parse. rewrite Hsrc.
  change ("^" ++ (translate prefix ++ "(.*)") ++ "$")%string
    with (String "^" ((translate prefix ++ "(.*)") ++ "$")).
  cbn [list_ascii_of_string].
  rewrite !list_of_append, (translate_plain _ Hp), <- app_assoc.
  set (p := list_ascii_of_string prefix) in *.
  change (list_ascii_of_string "(.*)" ++ list_ascii_of_string "$")
    with (list_ascii_of_string "(.*)$").
  set (tail := list_ascii_of_string "(.*)$").
  set (src := escaped p ++ tail).
  assert (Hlen : List.length p + 5 <= List.length src).
  { unfold src. rewrite length_app. pose proof (escaped_length p).
    unfold tail. simpl. lia. }
  set (F := 4 * List.length ("^"%char :: src) + 5).
  assert (HF : List.length p + 10 <= F).
  { unfold F. cbn [List.length]. lia. }
  assert (Hq : noQuantifierHead tail).
  { simpl. repeat split; discriminate. }
  assert (Halt : alternative (S F) src 1
                 = Some (charsThen p
                           (Seq (Group 1 (Seq (Quant 0 None true Dot) Empty))
                              (Seq Eol Empty)), [], 2)).
  { unfold src.
    rewrite (alternative_plain_chars p tail Hp Hq (S F) 1) by lia.
    unfold tail. rewrite alternative_wildcard_end by lia. reflexivity. }
  replace (4 * List.length ("^"%char :: src) + 8) with (S (S (S F)))
    by (unfold F; lia).
  rewrite (disjunction_anchored _ _ _ _ _ Halt).
  destruct cs; reflexivity.
Qed.

(** A greedy [.*] before the end of the input reads all that is left,
    when no line terminator is in it. *)
Lemma repeat_any_to_end (m : Matcher) (k : Cont) :
  (forall x k0, m x k0 = step (fun a => negb (isLineTerminator a)) x k0) ->
  (forall y, rest y <> [] -> k y = None) ->
  forall (s : list ascii) (fuel i : nat) (cs : list (option (list ascii))),
    List.length s + 1 <= fuel ->
    repeatMatcher m [] true k fuel 0 None (mkState s i cs)
    = if forallb (fun a => negb (isLineTerminator a)) s
      then k (mkState [] (i + List.length s) cs)
      else None.
Proof.
  intros Hm Hk. induction s as [|a s IH]; intros fuel i cs Hfuel;
    (destruct fuel as [|fuel]; [simpl in Hfuel; lia|]).
  - cbn [repeatMatcher forallb List.length clearCaps fold_left].
    change (Nat.eqb 0 0) with true. cbn [negb]. rewrite Hm.
    cbn [step rest orElse]. rewrite Nat.add_0_r. reflexivity.
  - assert (Hx : k (mkState (a :: s) i cs) = None)
      by (apply Hk; discriminate).
    assert (Hneq : Nat.eqb (S i) i = false) by (apply Nat.eqb_neq; lia).
    assert (Hrec : repeatMatcher m [] true k fuel 0 None
                     (mkState s (S i) cs)
                   = if forallb (fun a => negb (isLineTerminator a)) s
                     then k (mkState [] (i + List.length (a :: s)) cs)
                     else None).
    { rewrite IH by (simpl in Hfuel; lia).
      simpl List.length. rewrite Nat.add_succ_r. reflexivity. }
    cbn [repeatMatcher clearCaps fold_left Nat.pred option_map].
    change (Nat.eqb 0 0) with true. cbn [negb andb forallb]. rewrite Hm.
    cbn [step rest pos caps].
    destruct (negb (isLineTerminator a)); cbn [andb orElse];
      [|exact Hx].
    rewrite Hneq, Hrec.
    destruct (forallb (fun a0 => negb (isLineTerminator a0)) s);
      cbn [orElse]; [|exact Hx].
    destruct (k (mkState [] (i + List.length (a :: s)) cs)); cbn [orElse];
      [reflexivity | exact Hx].
Qed.

Lemma repeat_dot_to_end (ic : bool) (k : Cont) :
  (forall y, rest y <> [] -> k y = None) ->
  forall (s : list ascii) (fuel i : nat) (cs : list (option (list ascii))),
    List.length s + 1 <= fuel ->
    repeatMatcher (run ic Dot) [] true k fuel 0 None (mkState s i cs)
    = if forallb (fun a => negb (isLineTerminator a)) s
      then k (mkState [] (i + List.length s) cs)
      else None.
Proof. apply repeat_any_to_end. reflexivity. Qed.

Lemma stripPrefix_same (p s : list ascii) :
  stripPrefix false p s = Some [] <-> s = p.
Proof.
  revert s. induction p as [|c p IH]; intros s.
  - simpl. split; [intros [= ->]; reflexivity | intros ->; reflexivity].
  - destruct s as [|a s]; simpl; [split; discriminate|].
    unfold canon. destruct (Ascii.eqb_spec a c) as [->|Hne].
    + rewrite IH. split; [intros ->; reflexivity | intros [= ->]; reflexivity].
    + split; [discriminate | intros [= H _]; contradiction].
Qed.

Lemma sameText_eqb (pattern path : string) :
  sameText false (list_ascii_of_string pattern) (list_ascii_of_string path)
  = String.eqb path pattern.
Proof.
  unfold sameText.
  destruct (String.eqb_spec path pattern) as [->|Hne].
  - rewrite (proj2 (stripPrefix_same _ _) eq_refl). reflexivity.
  - destruct (stripPrefix false _ _) as [[|x r]|] eqn:E; try reflexivity.
    apply stripPrefix_same in E. exfalso. apply Hne.
    rewrite <- (string_of_list_ascii_of_string path),
            <- (string_of_list_ascii_of_string pattern), E.
    reflexivity.
Qed.

End PlainPatterns.





(* ================================================================== *)
(** ** The cache over two requests *)

Lemma fetch_refresh_success (rt : JsRuntime) (req : Request) (env : Env)
  (cache : Cache) (now : Z) (net : Network) (src : string)
  (ext : list RedirectRule) :
  preprocess (url req) env = None ->
  absentOrStale cache now ->
  GIST_CONFIG_URL env = Some src -> src <> "" ->
  net src = HttpResponse true (Some (JArray ext)) -> ext <> [] ->
  cacheAfter (fetch req env cache now net) = mkCache (Some ext) now.
Proof.
  intros Hp Hstale Hsrc Hne Hnet Hext.
  rewrite (fetch_passed rt req env cache now net Hp). simpl.
  rewrite (loadRules_stale env cache now net Hstale). unfold refresh.
  rewrite (configuredSource_some env src Hsrc Hne), Hnet.
  destruct ext as [|r ext]; [congruence | reflexivity].
Qed.

Lemma fetch_refresh_failure (rt : JsRuntime) (req : Request) (env : Env)
  (cache : Cache) (now : Z) (net : Network) (src : string) :
  preprocess (url req) env = None ->
  absentOrStale cache now ->
  GIST_CONFIG_URL env = Some src -> src <> "" ->
  failedFetch (net src) ->
  cacheAfter (fetch req env cache now net) = cache.
Proof.
  intros Hp Hstale Hsrc Hne Hfail.
  rewrite (fetch_passed rt req env cache now net Hp). simpl.
  rewrite (loadRules_stale env cache now net Hstale).
  rewrite (refresh_failed env cache now net src
             (configuredSource_some env src Hsrc Hne) Hfail).
  reflexivity.
Qed.

(** X16: after a request has refreshed the cache at time T, every
    request handled less than 300000 ms after T, whatever its
    environment and whatever the rule source would answer, fetches
    nothing, leaves the cache as the refresh made it and is resolved
    against the fetched rules. *)
Theorem refreshed_cache_serves_the_window (rt : JsRuntime) (req : Request)
  (env : Env) (cache : Cache) (now : Z) (net : Network) (src : string)
  (ext : list RedirectRule) :
  preprocess (url req) env = None ->
  absentOrStale cache now ->
  GIST_CONFIG_URL env = Some src -> src <> "" ->
  net src = HttpResponse true (Some (JArray ext)) -> ext <> [] ->
  forall (req' : Request) (env' : Env) (now' : Z) (net' : Network),
    now' - now < 300000 ->
    fetched (fetch req' env' (cacheAfter (fetch req env cache now net)) now'
               net') = []
    /\ cacheAfter (fetch req' env' (cacheAfter (fetch req env cache now net))
                     now' net')
       = mkCache (Some ext) now
    /\ activeRules env' (cacheAfter (fetch req env cache now net)) now' net'
       = ext.
Proof.
  intros Hp Hstale Hsrc Hne Hnet Hext req' env' now' net' Hwin.
  rewrite (fetch_refresh_success rt req env cache now net src ext)
    by assumption.
  assert (Hload : loadRules env' (mkCache (Some ext) now) now' net'
                  = (ext, mkCache (Some ext) now, [])).
  { unfold loadRules. simpl.
    destruct (Z.ltb_spec (now' - now) CACHE_TTL);
      [reflexivity | unfold CACHE_TTL in *; lia]. }
  unfold activeRules. rewrite Hload.
  destruct (preprocess (url req') env') as [r|] eqn:Hp'.
  - rewrite (fetch_redirected rt req' env' _ now' net' r Hp'). auto.
  - rewrite (fetch_passed rt req' env' _ now' net' Hp'), Hload. auto.
Qed.

Lemma refreshed_cache_serves_the_window_witness :
  let req := getRequest (exampleUrl "https" "/x" None) in
  let net := serving [simpleRule "/a" "/b"] in
  (preprocess (url req) gistEnv = None
   /\ absentOrStale initialCache 1000
   /\ GIST_CONFIG_URL gistEnv = Some "https://gist.example/redirects.json"
   /\ net "https://gist.example/redirects.json"
      = HttpResponse true (Some (JArray [simpleRule "/a" "/b"]))
   /\ 300999 - 1000 < 300000)
  /\ fetch (rt := fragmentRuntime) (getRequest (exampleUrl "https" "/a" None))
       gistEnv (cacheAfter (fetch (rt := fragmentRuntime) req gistEnv
                              initialCache 1000 net))
       300999 (serving [simpleRule "/a" "/c"])
     = mkRun (Ok (Redirect "https://example.com/b" 301))
         (cacheOf [simpleRule "/a" "/b"] 1000) [].
Proof.
  intros req net.
  assert (H1 : preprocess (url req) gistEnv = None) by reflexivity.
  assert (H2 : absentOrStale initialCache 1000) by (left; reflexivity).
  assert (H3 : GIST_CONFIG_URL gistEnv
               = Some "https://gist.example/redirects.json") by reflexivity.
  assert (H4 : net "https://gist.example/redirects.json"
               = HttpResponse true (Some (JArray [simpleRule "/a" "/b"])))
    by reflexivity.
  assert (H5 : 300999 - 1000 < 300000) by lia.
  split; [repeat split; assumption|].
  assert (Hne : "https://gist.example/redirects.json" <> "") by discriminate.
  assert (Hext : [simpleRule "/a" "/b"] <> []) by discriminate.
  destruct (refreshed_cache_serves_the_window fragmentRuntime req gistEnv
              initialCache 1000 net _ _ H1 H2 H3 Hne H4 Hext
              (getRequest (exampleUrl "https" "/a" None)) gistEnv 300999
              (serving [simpleRule "/a" "/c"]) H5) as (_ & _ & _).
  reflexivity.
Defined.

(** X17: a failed refresh is not remembered: when a request found the
    cache absent or stale and its fetch of the rule source failed, every
    later request that passes preprocessing fetches the source again. *)
Theorem failed_refresh_is_retried (rt : JsRuntime) (req : Request)
  (env : Env) (cache : Cache) (now : Z) (net : Network) (src : string) :
  preprocess (url req) env = None ->
  absentOrStale cache now ->
  GIST_CONFIG_URL env = Some src -> src <> "" ->
  failedFetch (net src) ->
  forall (req' : Request) (now' : Z) (net' : Network),
    preprocess (url req') env = None ->
    now <= now' ->
    fetched (fetch req' env (cacheAfter (fetch req env cache now net)) now'
               net') = [src].
Proof.
  intros Hp Hstale Hsrc Hne Hfail req' now' net' Hp' Hlater.
  rewrite (fetch_refresh_failure rt req env cache now net src) by assumption.
  assert (Hstale' : absentOrStale cache now').
  { destruct Hstale as [H|H]; [left; exact H | right; lia]. }
  rewrite (fetch_passed rt req' env cache now' net' Hp'). simpl.
  rewrite (loadRules_stale env cache now' net' Hstale').
  apply refresh_fetches_once. apply configuredSource_some; assumption.
Qed.

Lemma failed_refresh_is_retried_witness :
  let req := getRequest (exampleUrl "https" "/x" None) in
  (preprocess (url req) gistEnv = None
   /\ absentOrStale initialCache 1000
   /\ GIST_CONFIG_URL gistEnv = Some "https://gist.example/redirects.json"
   /\ failedFetch (offline "https://gist.example/redirects.json")
   /\ 1000 <= 1001)
  /\ fetched (fetch (rt := fragmentRuntime) req gistEnv
                (cacheAfter (fetch (rt := fragmentRuntime) req gistEnv
                               initialCache 1000 offline))
                1001 offline)
     = ["https://gist.example/redirects.json"].
Proof.
  intros req.
  assert (H1 : preprocess (url req) gistEnv = None) by reflexivity.
  assert (H2 : absentOrStale initialCache 1000) by (left; reflexivity).
  assert (H3 : GIST_CONFIG_URL gistEnv
               = Some "https://gist.example/redirects.json") by reflexivity.
  assert (H4 : failedFetch (offline "https://gist.example/redirects.json"))
    by constructor.
  assert (H5 : 1000 <= 1001) by lia.
  split; [repeat split; assumption|].
  refine (failed_refresh_is_retried fragmentRuntime req gistEnv initialCache
            1000 offline _ H1 H2 H3 _ H4 req 1001 offline H1 H5).
  discriminate.
Defined.
